(** * Chat gateway (src/index.ts): model and verification

    A shallow embedding of the final variant of the worker in
    [src/index.ts] (the one with live model discovery): the rate limiter,
    the OpenAI-to-Gemini message translation, model resolution, the two
    provider clients with their single decommission retry, and the
    [POST /v1/chat] handler.

    Modelling conventions.
    - JSON values are the inductive [jsval].  A safe integer (up to
      2^53 in absolute value, where every integer is a number of
      JavaScript and prints as its decimal digits) is [JNum z]; any other
      number, [1e21] for one, is [JFrac r], identified by the text
      JavaScript prints for it (such a number is never zero, so it is
      truthy).
    - [String(v)] throws on some values; [ToString] returns [None] there,
      and the [TypeError] is thrown where the source converts: in
      [openAIToGeminiBody], in the [join] of the answer parts, and in
      [encodeURIComponent] of the earlier variants.
    - Strings are [string]s of 8-bit characters; the white space and line
      terminators recognised are the ones that fit in one character.
    - A thrown value is represented by the text [String(e)] gives for it,
      the only thing the handlers ever do with a caught value.
    - [await fetch] either rejects or yields a response; the network is an
      arbitrary function of the requests made so far.  The key-value store
      never fails; its entries carry their expiry instant. *)

From Stdlib Require Import ZArith String Ascii List Bool Lia.
From Stdlib Require Import Numbers.DecimalString Numbers.DecimalPos.
From stdpp Require Import gmap strings.
Import ListNotations.

Set Warnings "-register-all".
Local Open Scope string_scope.
Local Open Scope list_scope.
Local Open Scope Z_scope.

(** ** JavaScript values *)

Module Js.

Inductive jsval : Type :=
  | JUndefined
  | JNull
  | JBool (b : bool)
  | JNum (z : Z)
  | JFrac (repr : string)
  | JStr (s : string)
  | JArr (items : list jsval)
  | JObj (fields : list (string * jsval)).

(** Truthiness: what [!v], [v && _], [v || _], [v ? _ : _] and
    [filter(Boolean)] test. *)
Definition truthy (v : jsval) : bool :=
  match v with
  | JUndefined | JNull => false
  | JBool b => b
  | JNum z => negb (z =? 0)
  | JFrac _ => true
  | JStr s => negb (String.eqb s "")
  | JArr _ | JObj _ => true
  end.

Definition str_truthy (s : string) : bool := negb (String.eqb s "").

(** [typeof v === 'string'], [typeof v === 'number'], [Array.isArray(v)]. *)
Definition is_string (v : jsval) : bool :=
  match v with JStr _ => true | _ => false end.

Definition is_number (v : jsval) : bool :=
  match v with JNum _ | JFrac _ => true | _ => false end.

Definition isArray (v : jsval) : bool :=
  match v with JArr _ => true | _ => false end.

(** [v === 'lit'] for a string literal. *)
Definition eq_str (v : jsval) (lit : string) : bool :=
  match v with JStr s => String.eqb s lit | _ => false end.

(** [a ?? b]. *)
Definition nullish (a b : jsval) : jsval :=
  match a with JUndefined | JNull => b | _ => a end.

Fixpoint assoc (k : string) (fields : list (string * jsval)) : jsval :=
  match fields with
  | [] => JUndefined
  | (k', v) :: rest => if String.eqb k k' then v else assoc k rest
  end.

(** [v?.k] (and [v.k] where [v] is known not to be nullish) for the
    property names the worker reads; none of them exists on arrays,
    strings, numbers or booleans. *)
Definition get (k : string) (v : jsval) : jsval :=
  match v with
  | JObj fields => assoc k fields
  | _ => JUndefined
  end.

(** [v?.[0]]. *)
Definition get0 (v : jsval) : jsval :=
  match v with
  | JArr (x :: _) => x
  | JStr (String c _) => JStr (String c "")
  | JObj fields => assoc "0" fields
  | _ => JUndefined
  end.

(** The array elements when [Array.isArray(v)], nothing otherwise. *)
Definition items_of (v : jsval) : list jsval :=
  match v with JArr l => l | _ => [] end.

(** Decimal text of an integer, as [String(n)] prints it. *)
Definition string_of_int (z : Z) : string :=
  match z with
  | Z0 => "0"
  | Zpos p => NilEmpty.string_of_uint (Pos.to_uint p)
  | Zneg p => "-" +:+ NilEmpty.string_of_uint (Pos.to_uint p)
  end.

(** The one-character string ['\n']. *)
Definition nl : string := String "010" "".

Fixpoint join (sep : string) (l : list string) : string :=
  match l with
  | [] => ""
  | [x] => x
  | x :: rest => x +:+ sep +:+ join sep rest
  end.

(** The text [String(v)] gives when it returns ([converts] below); an
    array prints its elements joined by commas, with [null] and
    [undefined] elements printed as nothing. *)
Fixpoint String_ (v : jsval) : string :=
  match v with
  | JUndefined => "undefined"
  | JNull => "null"
  | JBool true => "true"
  | JBool false => "false"
  | JNum z => string_of_int z
  | JFrac r => r
  | JStr s => s
  | JArr l =>
      join ","
        ((fix elems (l : list jsval) : list string :=
            match l with
            | [] => []
            | x :: rest =>
                match x with
                | JUndefined | JNull => ""
                | _ => String_ x
                end :: elems rest
            end) l)
  | JObj _ => "[object Object]"
  end.

(** [String(v)] -- and with it [array.join] and [encodeURIComponent(v)] --
    throws a [TypeError] on an object with an own property [toString]: in
    a JSON value that property is no function, and [valueOf], own or
    inherited, yields no primitive either.  An array converts each of its
    elements other than [null] and [undefined].  [converts v]: the
    conversion of [v] returns. *)
Fixpoint converts (v : jsval) : bool :=
  match v with
  | JObj fields => negb (existsb (fun f => String.eqb (fst f) "toString") fields)
  | JArr l =>
      (fix all (l : list jsval) : bool :=
         match l with
         | [] => true
         | x :: rest => converts x && all rest
         end) l
  | _ => true
  end.

(** The text [String(e)] prints for that [TypeError]. *)
Definition type_error : string := "TypeError: Cannot convert object to primitive value".

(** [String(v)]: the text, or [None] when the [TypeError] is thrown. *)
Definition ToString (v : jsval) : option string :=
  if converts v then Some (String_ v) else None.

End Js.
Import Js.

(** ** Text helpers: white space, [trim], [parseInt], the decommission pattern *)

Module Text.

Definition is_ws (c : ascii) : bool :=
  let n := nat_of_ascii c in
  ((9 <=? n) && (n <=? 13))%nat || (n =? 32)%nat || (n =? 160)%nat.

Definition is_line_terminator (c : ascii) : bool :=
  let n := nat_of_ascii c in (n =? 10)%nat || (n =? 13)%nat.

Fixpoint trim_start (s : string) : string :=
  match s with
  | String c rest => if is_ws c then trim_start rest else s
  | EmptyString => ""
  end.

Fixpoint trim_end (s : string) : string :=
  match s with
  | EmptyString => ""
  | String c rest =>
      let r := trim_end rest in
      if is_ws c && String.eqb r "" then "" else String c r
  end.

(** [s.trim()]. *)
Definition trim (s : string) : string := trim_end (trim_start s).

Fixpoint all_ws (s : string) : bool :=
  match s with
  | EmptyString => true
  | String c rest => is_ws c && all_ws rest
  end.

Definition digit_of (c : ascii) : option (Decimal.uint -> Decimal.uint) :=
  match c with
  | "0"%char => Some Decimal.D0 | "1"%char => Some Decimal.D1
  | "2"%char => Some Decimal.D2 | "3"%char => Some Decimal.D3
  | "4"%char => Some Decimal.D4 | "5"%char => Some Decimal.D5
  | "6"%char => Some Decimal.D6 | "7"%char => Some Decimal.D7
  | "8"%char => Some Decimal.D8 | "9"%char => Some Decimal.D9
  | _ => None
  end.

(** The longest prefix of decimal digits. *)
Fixpoint leading_digits (s : string) : Decimal.uint :=
  match s with
  | EmptyString => Decimal.Nil
  | String c rest =>
      match digit_of c with
      | Some d => d (leading_digits rest)
      | None => Decimal.Nil
      end
  end.

(** [parseInt(s, 10)]: leading white space is skipped, one sign is
    accepted, then the longest run of digits is read; [None] is [NaN]
    (no digit at that point). *)
Definition parseInt (s : string) : option Z :=
  let s1 := trim_start s in
  let '(neg, s2) :=
    match s1 with
    | String "-"%char r => (true, r)
    | String "+"%char r => (false, r)
    | _ => (false, s1)
    end in
  match leading_digits s2 with
  | Decimal.Nil => None
  | d => let n := Z.of_N (N.of_uint d) in Some (if neg then - n else n)
  end.

(** A number that may be [NaN]: [n + 1], [String(n)], [n <= k]. *)
Definition num_succ (n : option Z) : option Z := option_map Z.succ n.

Definition num_String (n : option Z) : string :=
  match n with Some z => string_of_int z | None => "NaN" end.

Definition num_le (n : option Z) (k : Z) : bool :=
  match n with Some z => z <=? k | None => false end.

(** ASCII case folding, which is all [/i] does to the letters of the
    pattern below. *)
Definition lower (c : ascii) : ascii :=
  let n := nat_of_ascii c in
  if ((65 <=? n) && (n <=? 90))%nat then ascii_of_nat (n + 32) else c.

(** [lit] (given in lower case) is a prefix of [s], ignoring case. *)
Fixpoint prefix_ci (lit s : string) : bool :=
  match lit, s with
  | EmptyString, _ => true
  | String a lit', String c s' => Ascii.eqb a (lower c) && prefix_ci lit' s'
  | String _ _, EmptyString => false
  end.

Fixpoint drop (n : nat) (s : string) : string :=
  match n, s with
  | O, _ => s
  | S n', String _ s' => drop n' s'
  | S _, EmptyString => ""
  end.

(** What remains after [model]: [.*(decommissioned|not found)], where [.]
    is any character but a line terminator. *)
Fixpoint after_model (s : string) : bool :=
  prefix_ci "decommissioned" s || prefix_ci "not found" s ||
  match s with
  | EmptyString => false
  | String c rest => if is_line_terminator c then false else after_model rest
  end.

(** [/model.*(decommissioned|not found)/i.test(s)]. *)
Fixpoint decommission_pattern (s : string) : bool :=
  (prefix_ci "model" s && after_model (drop 5 s)) ||
  match s with
  | EmptyString => false
  | String _ rest => decommission_pattern rest
  end.

(** The reading of the pattern: [s] in lower case, and a gap without
    line terminators. *)
Fixpoint lower_string (s : string) : string :=
  match s with
  | EmptyString => ""
  | String c rest => String (lower c) (lower_string rest)
  end.

Fixpoint no_line_terminator (s : string) : bool :=
  match s with
  | EmptyString => true
  | String c rest => negb (is_line_terminator c) && no_line_terminator rest
  end.

End Text.
Import Text.

(** ** Message translation: [openAIToGeminiBody] and the response envelope *)

Module Translate.

(** One element of Gemini's [contents]: [{ role, parts: [{ text }] }]. *)
Record turn : Type := Turn { role : string; text : string }.

Record generationConfig : Type := GenerationConfig {
  temperature : option jsval;
  maxOutputTokens : option jsval
}.

Record gemini_body : Type := GeminiBody {
  contents : list turn;
  config : generationConfig
}.

(** The body of the [for (const m of messages)] loop, as a step on the
    two variables it updates: [systemPrefix] and the [contents] pushed so
    far.  This is the step made when [String(m.content)] returns;
    [convert_step] below is the step with the conversion that can throw. *)
Definition step (st : string * list turn) (m : jsval) : string * list turn :=
  let '(systemPrefix, out) := st in
  if negb (truthy (get "role" m)) || negb (truthy (get "content" m)) then st
  else if eq_str (get "role" m) "system" then
    (systemPrefix +:+ (if str_truthy systemPrefix then nl else "") +:+ String_ (get "content" m), out)
  else
    let role := if eq_str (get "role" m) "assistant" then "model" else "user" in
    let content := String_ (get "content" m) in
    if str_truthy systemPrefix && String.eqb role "user" then
      ("", out ++ [Turn role (systemPrefix +:+ nl +:+ nl +:+ content)])
    else
      (systemPrefix, out ++ [Turn role content]).

Definition loop (st : string * list turn) (messages : list jsval) : string * list turn :=
  fold_left step messages st.

(** What the final [if (systemPrefix) contents.push(...)] leaves. *)
Definition flush (st : string * list turn) : list turn :=
  let '(systemPrefix, out) := st in
  if str_truthy systemPrefix then out ++ [Turn "user" systemPrefix] else out.

(** The [contents] built from [messages], when every conversion returns. *)
Definition translate_messages (messages : list jsval) : list turn :=
  flush (loop ("", []) messages).

(** [Array.isArray(body?.messages) ? body.messages : []]. *)
Definition messages_of (body : jsval) : list jsval :=
  if isArray (get "messages" body) then items_of (get "messages" body) else [].

Definition generation_config (body : jsval) : generationConfig :=
  {| temperature :=
       if is_number (get "temperature" body) then Some (get "temperature" body) else None;
     maxOutputTokens :=
       if is_number (get "max_tokens" body) then Some (get "max_tokens" body) else None |}.

(** The loop body with its conversion: [String(m.content)] is evaluated
    for a message that is not skipped, and the [TypeError] it may throw
    ends the function ([None]). *)
Definition convert_step (st : string * list turn) (m : jsval) : option (string * list turn) :=
  let '(systemPrefix, out) := st in
  if negb (truthy (get "role" m)) || negb (truthy (get "content" m)) then Some st
  else if eq_str (get "role" m) "system" then
    match ToString (get "content" m) with
    | Some text =>
        Some (systemPrefix +:+ (if str_truthy systemPrefix then nl else "") +:+ text, out)
    | None => None
    end
  else
    let role := if eq_str (get "role" m) "assistant" then "model" else "user" in
    match ToString (get "content" m) with
    | Some content =>
        if str_truthy systemPrefix && String.eqb role "user" then
          Some ("", out ++ [Turn role (systemPrefix +:+ nl +:+ nl +:+ content)])
        else
          Some (systemPrefix, out ++ [Turn role content])
    | None => None
    end.

Fixpoint convert_loop (st : string * list turn) (messages : list jsval)
    : option (string * list turn) :=
  match messages with
  | [] => Some st
  | m :: rest =>
      match convert_step st m with
      | Some st' => convert_loop st' rest
      | None => None
      end
  end.

(** [openAIToGeminiBody(body)]: the body for Gemini, or [None] when a
    conversion throws. *)
Definition openAIToGeminiBody (body : jsval) : option gemini_body :=
  match convert_loop ("", []) (messages_of body) with
  | Some st => Some {| contents := flush st; config := generation_config body |}
  | None => None
  end.

(** The body [openAIToGeminiBody] returns, when it returns one. *)
Definition gemini_body_of (body : jsval) : gemini_body :=
  {| contents := translate_messages (messages_of body); config := generation_config body |}.

(** Every [String(m.content)] the loop evaluates returns. *)
Definition convertible (messages : list jsval) : bool :=
  forallb (fun m => negb (truthy (get "role" m) && truthy (get "content" m))
                    || converts (get "content" m)) messages.

Definition toOpenAIResponse (text : jsval) : jsval :=
  JObj [("choices", JArr [JObj [("message", JObj [("content", text)])]])].

(** A message [{ role, content }] with string fields. *)
Definition msg (r c : string) : jsval :=
  JObj [("role", JStr r); ("content", JStr c)].

End Translate.
Import Translate.

(** ** The world: the key-value store and the network *)

Module World.

(** The request sent to Groq's chat-completions endpoint. *)
Record groq_req : Type := GroqReq {
  model : string;
  messages : jsval;
  req_temperature : jsval;
  max_tokens : jsval;
  stream : bool
}.

(** The four outbound calls, each with the API key it carries.  The
    Gemini URL embeds [encodeURIComponent(model)]; the request records the
    model itself. *)
Inductive request : Type :=
  | GroqModels (key : string)
  | GeminiModels (key : string)
  | GroqChat (key : string) (req : groq_req)
  | GeminiGenerate (key : string) (model : string) (body : gemini_body).

(** What [res.json()] yields: a parsed value, or a rejection. *)
Inductive parsed : Type :=
  | ParseError (e : string)
  | Parsed (v : jsval).

(** A response, as far as the worker looks at it: [res.status],
    [res.text()] ([None] when reading fails) and [res.json()]. *)
Record response : Type := Response {
  status : Z;
  res_text : option string;
  res_json : parsed
}.

Inductive fetch_outcome : Type :=
  | Rejected (e : string)
  | Responded (r : response).

(** [res.ok]. *)
Definition ok (r : response) : bool := (200 <=? status r) && (status r <=? 299).

(** [await res.text().catch(() => '')]. *)
Definition text_or_empty (r : response) : string :=
  match res_text r with Some t => t | None => "" end.

(** The network: the outcome of a request, given the requests made
    before it (oldest first). *)
Definition network : Type := list request -> request -> fetch_outcome.

(** The state the worker changes: the store [RATE_KV], whose entries are a
    value and the instant (in ms) at which it expires, and the log of
    outbound requests. *)
Record world : Type := World {
  kv : gmap string (string * Z);
  trace : list request
}.

Inductive result (A : Type) : Type :=
  | Ok (a : A)
  | Throw (e : string).
Arguments Ok {A} a.
Arguments Throw {A} e.

(** Computations that read and change the world and may throw; the
    changes made before a throw stay. *)
Definition M (A : Type) : Type := world -> result A * world.

Definition ret {A} (a : A) : M A := fun w => (Ok a, w).

Definition throw {A} (e : string) : M A := fun w => (Throw e, w).

Definition bind {A B} (c : M A) (k : A -> M B) : M B :=
  fun w =>
    match c w with
    | (Ok a, w') => k a w'
    | (Throw e, w') => (Throw e, w')
    end.

(** [try { c } catch (e) { h(e) }]. *)
Definition try_catch {A} (c : M A) (h : string -> M A) : M A :=
  fun w =>
    match c w with
    | (Ok a, w') => (Ok a, w')
    | (Throw e, w') => h e w'
    end.

(** [throw new Error(msg)], by the text [String(e)] prints for it. *)
Definition throw_Error {A} (msg : string) : M A := throw ("Error: " +:+ msg).

(** A conversion in the course of a computation: its value, or the
    [TypeError] thrown. *)
Definition converted {A} (o : option A) : M A :=
  match o with Some a => ret a | None => throw type_error end.

(** [await env.RATE_KV.get(k)] and [await env.RATE_KV.put(k, v, { expirationTtl })]
    at instant [now] (ms). *)
Definition kv_get (now : Z) (k : string) : M (option string) :=
  fun w =>
    (Ok match kv w !! k with
        | Some (v, expires) => if now <? expires then Some v else None
        | None => None
        end, w).

Definition kv_put (now : Z) (k v : string) (ttl_seconds : Z) : M unit :=
  fun w => (Ok tt, {| kv := <[k := (v, now + 1000 * ttl_seconds)]> (kv w); trace := trace w |}).

Definition is_chat (rq : request) : bool :=
  match rq with GroqChat _ _ | GeminiGenerate _ _ _ => true | _ => false end.

Definition is_groq_chat (rq : request) : bool :=
  match rq with GroqChat _ _ => true | _ => false end.

Definition is_gemini (rq : request) : bool :=
  match rq with GeminiModels _ | GeminiGenerate _ _ _ => true | _ => false end.

End World.
Import World.

Declare Scope gateway_scope.
Delimit Scope gateway_scope with gw.
Notation "'let!' x ':=' c 'in' k" := (bind c (fun x => k))
  (at level 10, x name, c at level 100, k at level 200) : gateway_scope.
Local Open Scope gateway_scope.

(** ** The worker *)

Module Worker.

Inductive Preset : Type := speed | quality.

(** [Bindings], without [RATE_KV], which is part of the world. *)
Record Bindings : Type := {
  GROQ_API_KEY : option string;
  GEMINI_API_KEY : option string
}.

(** Truthiness of an optional secret: set and not empty. *)
Definition configured (k : option string) : bool :=
  match k with Some s => str_truthy s | None => false end.

Definition key_of (k : option string) : string :=
  match k with Some s => s | None => "undefined" end.

Definition GROQ_SPEED_PRIORITY : list string :=
  ["llama-3.1-8b-instant"; "llama-3.2-11b-vision"; "llama-3.2-3b-instruct";
   "llama-3.3-70b-versatile"].

Definition GROQ_QUALITY_PRIORITY : list string :=
  ["llama-3.3-70b-versatile"; "llama-3.1-70b-versatile"; "llama-3.1-8b-instant"].

Definition GEMINI_SPEED_PRIORITY : list string :=
  ["gemini-2.5-flash-lite"; "gemini-2.5-flash"; "gemini-2.0-flash"; "gemini-2.5-pro"].

Definition GEMINI_QUALITY_PRIORITY : list string :=
  ["gemini-2.5-pro"; "gemini-2.0-pro"; "gemini-2.5-flash"].

Definition GROQ_DEFAULT : string := "llama-3.1-8b-instant".
Definition GEMINI_DEFAULT : string := "gemini-2.5-flash".

(** *** Rate limiter *)

(** The key [rl:<id>:<window>] of the 10-minute window holding [now]. *)
Definition bucket (id : string) (now : Z) : string :=
  "rl:" +:+ (if str_truthy id then id else "anon") +:+ ":" +:+ string_of_int (now / 600000).

Definition rateLimit (id : string) (now : Z) : M bool :=
  let b := bucket id now in
  let! stored := kv_get now b in
  let current := num_succ (parseInt (match stored with Some v => v | None => "0" end)) in
  let! _ := kv_put now b (num_String current) 660 in
  ret (num_le current 60).

(** *** Helpers *)

Definition isDecommissionedHttp (status : Z) (body : string) : bool :=
  if status =? 404 then true
  else if (status =? 400) && decommission_pattern body then true
  else false.

(** [available.includes(v)] for a list of strings. *)
Definition includes (available : list string) (v : jsval) : bool :=
  match v with
  | JStr s => existsb (String.eqb s) available
  | _ => false
  end.

Fixpoint pickFirstAvailable (priority available : list string) : option string :=
  match priority with
  | [] => None
  | p :: rest =>
      if includes available (JStr p) then Some p else pickFirstAvailable rest available
  end.

(** [s.replace(/^models\//, '')]. *)
Definition strip_models (s : string) : string :=
  if String.prefix "models/" s then drop 7 s else s.

Fixpoint strings_of (l : list jsval) : list string :=
  match l with
  | [] => []
  | JStr s :: rest => s :: strings_of rest
  | _ :: rest => strings_of rest
  end.

(** The ids in a parsed model listing: [j?.<field>] when it is an array,
    each element's [?.<prop>], strings only. *)
Definition listed_ids (field prop : string) (j : jsval) : list string :=
  if isArray (get field j)
  then strings_of (map (get prop) (items_of (get field j)))
  else [].

(** What a listing call returns, given the response to it. *)
Definition groq_catalog (r : response) : list string :=
  if negb (ok r) then []
  else listed_ids "data" "id"
         (match res_json r with Parsed v => v | ParseError _ => JObj [] end).

Definition gemini_catalog (r : response) : list string :=
  if negb (ok r) then []
  else map strip_models
         (listed_ids "models" "name"
            (match res_json r with Parsed v => v | ParseError _ => JObj [] end)).

(** The part of [resolveGroqModel] / [resolveGeminiModel] that follows the
    listing call. *)
Definition choose (priority : list string) (fallback : string)
    (requested : jsval) (available : list string) : string :=
  if truthy requested && includes available requested then String_ requested
  else
    match pickFirstAvailable priority available with
    | Some p => p
    | None =>
        match available with
        | a :: _ => if str_truthy a then a else fallback
        | [] => fallback
        end
    end.

Definition groq_priority (preset : Preset) : list string :=
  match preset with quality => GROQ_QUALITY_PRIORITY | speed => GROQ_SPEED_PRIORITY end.

Definition gemini_priority (preset : Preset) : list string :=
  match preset with quality => GEMINI_QUALITY_PRIORITY | speed => GEMINI_SPEED_PRIORITY end.

Section Network.

Variable net : network.

(** [await fetch(...)]: logged, then answered by the network. *)
Definition fetch (rq : request) : M response :=
  fun w =>
    let w' := {| kv := kv w; trace := trace w ++ [rq] |} in
    match net (trace w) rq with
    | Rejected e => (Throw e, w')
    | Responded r => (Ok r, w')
    end.

(** *** Live model discovery *)

Definition listGroqModels (apiKey : string) : M (list string) :=
  let! r := fetch (GroqModels apiKey) in
  ret (groq_catalog r).

Definition listGeminiModels (apiKey : string) : M (list string) :=
  let! r := fetch (GeminiModels apiKey) in
  ret (gemini_catalog r).

Definition resolveGroqModel (env : Bindings) (requested : jsval) (preset : Preset) : M string :=
  let! available := listGroqModels (key_of (GROQ_API_KEY env)) in
  ret (choose (groq_priority preset) GROQ_DEFAULT requested available).

Definition resolveGeminiModel (env : Bindings) (requested : jsval) (preset : Preset) : M string :=
  let! available := listGeminiModels (key_of (GEMINI_API_KEY env)) in
  ret (choose (gemini_priority preset) GEMINI_DEFAULT requested available).

(** *** Provider clients *)

Definition http_error (provider : string) (r : response) : string :=
  provider +:+ "_http_" +:+ string_of_int (status r) +:+ ":" +:+ text_or_empty r.

(** [await res.json().catch((e) => { throw new Error(`<tag>:${String(e)}`) })]. *)
Definition json_or_throw (tag : string) (r : response) : M jsval :=
  match res_json r with
  | Parsed v => ret v
  | ParseError e => throw_Error (tag +:+ ":" +:+ e)
  end.

Definition groq_text (json : jsval) : jsval :=
  get "content" (get "message" (get0 (get "choices" json))).

Definition callGroq (env : Bindings) (body : jsval) (preset : Preset) : M jsval :=
  if negb (configured (GROQ_API_KEY env)) then throw_Error "groq_key_missing" else
  let key := key_of (GROQ_API_KEY env) in
  let! model := resolveGroqModel env (get "model" body) preset in
  let req :=
    {| model := model;
       messages := nullish (get "messages" body) (JArr []);
       req_temperature := nullish (get "temperature" body) (JFrac "0.7");
       max_tokens := get "max_tokens" body;
       stream := false |} in
  let! res := fetch (GroqChat key req) in
  let! res :=
    (if negb (ok res) then
       if isDecommissionedHttp (status res) (text_or_empty res) then
         let! model := resolveGroqModel env JUndefined preset in
         let retryReq :=
           {| model := model; messages := messages req;
              req_temperature := req_temperature req;
              max_tokens := max_tokens req; stream := stream req |} in
         let! res := fetch (GroqChat key retryReq) in
         if negb (ok res) then throw_Error (http_error "groq" res) else ret res
       else throw_Error (http_error "groq" res)
     else ret res) in
  let! json := json_or_throw "groq_json" res in
  let txt := groq_text json in
  if negb (truthy txt) || negb (is_string txt) then throw_Error "groq_empty"
  else ret (toOpenAIResponse txt).

(** The texts [l.join(sep)] joins, for a list without [null] and
    [undefined]: each element converted; [None] when a conversion throws. *)
Fixpoint to_strings (l : list jsval) : option (list string) :=
  match l with
  | [] => Some []
  | x :: rest =>
      match ToString x, to_strings rest with
      | Some s, Some ss => Some (s :: ss)
      | _, _ => None
      end
  end.

(** [parts.map((p) => p?.text ?? '').filter(Boolean).join('\n').trim()],
    or [''] when [parts] is not an array; [None] when the [join] throws. *)
Definition gemini_text (json : jsval) : option string :=
  let parts := get "parts" (get "content" (get0 (get "candidates" json))) in
  if isArray parts then
    option_map (fun ss => trim (join nl ss))
      (to_strings
        (List.filter truthy
          (map (fun p => nullish (get "text" p) (JStr "")) (items_of parts))))
  else Some "".

Definition callGemini (env : Bindings) (body : jsval) (preset : Preset) : M jsval :=
  if negb (configured (GEMINI_API_KEY env)) then throw_Error "gemini_key_missing" else
  let key := key_of (GEMINI_API_KEY env) in
  let! model := resolveGeminiModel env (get "model" body) preset in
  let! gemBody := converted (openAIToGeminiBody body) in
  let! res := fetch (GeminiGenerate key model gemBody) in
  let! res :=
    (if negb (ok res) then
       if isDecommissionedHttp (status res) (text_or_empty res) then
         let! model := resolveGeminiModel env JUndefined preset in
         let! res := fetch (GeminiGenerate key model gemBody) in
         if negb (ok res) then throw_Error (http_error "gemini" res) else ret res
       else throw_Error (http_error "gemini" res)
     else ret res) in
  let! json := json_or_throw "gemini_json" res in
  let! txt := converted (gemini_text json) in
  if negb (str_truthy txt) then throw_Error "gemini_empty"
  else ret (toOpenAIResponse (JStr txt)).

(** *** The chat endpoint *)

(** An inbound [POST /v1/chat]: the [X-Client-Id] header, if any, and
    what [c.req.json()] yields. *)
Record http_request : Type := HttpRequest {
  client_id : option string;
  req_json : parsed
}.

(** [c.json(payload, code)]. *)
Record http_response : Type := HttpResponse {
  code : Z;
  payload : jsval
}.

Definition error_json (code : Z) (msg : string) : http_response :=
  {| code := code; payload := JObj [("error", JStr msg)] |}.

Definition success_json (out : jsval) : http_response :=
  {| code := 200; payload := out |}.

(** [body?.preset === 'quality' ? 'quality' : 'speed']. *)
Definition preset_of (body : jsval) : Preset :=
  if eq_str (get "preset" body) "quality" then quality else speed.

Definition chat (env : Bindings) (now : Z) (rq : http_request) : M http_response :=
  try_catch
    (let clientId := match client_id rq with Some h => h | None => "anon" end in
     let! allowed := rateLimit clientId now in
     if negb allowed then ret (error_json 429 "rate_limited") else
     let! body :=
       (match req_json rq with Parsed v => ret v | ParseError e => throw e end) in
     let provider := nullish (get "provider" body) (JStr "auto") in
     let preset := preset_of body in
     if eq_str provider "groq" then
       try_catch
         (let! out := callGroq env body preset in ret (success_json out))
         (fun e => ret (error_json 502 ("groq_failed:" +:+ e)))
     else if eq_str provider "gemini" then
       try_catch
         (let! out := callGemini env body preset in ret (success_json out))
         (fun e => ret (error_json 502 ("gemini_failed:" +:+ e)))
     else
       try_catch
         (let! out := callGroq env body preset in ret (success_json out))
         (fun e1 =>
            if configured (GEMINI_API_KEY env) then
              try_catch
                (let! out := callGemini env body preset in ret (success_json out))
                (fun e2 => ret (error_json 500 ("fallback_failed:" +:+ e2)))
            else ret (error_json 502 ("groq_failed_no_fallback:" +:+ e1))))
    (fun e => ret (error_json 500 ("server_error:" +:+ e))).

End Network.

End Worker.
Import Worker.

(** ** Runs and scenarios used in the statements below *)

Module Scenario.

(** The client a rate-limit bucket belongs to: [id || 'anon']. *)
Definition client (id : string) : string := if str_truthy id then id else "anon".

(** A sequence of [rateLimit] calls, each by a client at an instant. *)
Fixpoint admit_all (calls : list (string * Z)) (w : world) : list bool * world :=
  match calls with
  | [] => ([], w)
  | (id, t) :: rest =>
      match rateLimit id t w with
      | (Ok b, w') => let '(bs, w'') := admit_all rest w' in (b :: bs, w'')
      | (Throw _, w') => ([], w')
      end
  end.

(** All calls fall in the 10-minute window number [W]. *)
Definition in_window (W : Z) (calls : list (string * Z)) : bool :=
  forallb (fun c => snd c / 600000 =? W) calls.

(** How many of [calls] were made by the client of [id]. *)
Definition served (id : string) (calls : list (string * Z)) : Z :=
  Z.of_nat (length (List.filter (fun c => String.eqb (client (fst c)) (client id)) calls)).

(** The counter a bucket holds at [now], as [rateLimit] reads it. *)
Definition stored (now : Z) (b : string) (w : world) : option string :=
  match kv w !! b with
  | Some (v, expires) => if now <? expires then Some v else None
  | None => None
  end.



(** The chat-completion requests in a log, and whether provider B was
    contacted. *)
Definition chat_requests (tr : list request) : list request := List.filter is_chat tr.

Definition contacted_gemini (tr : list request) : bool := existsb is_gemini tr.

(** The model a chat-completion request names. *)
Definition model_of (rq : request) : option string :=
  match rq with
  | GroqChat _ r => Some (model r)
  | GeminiGenerate _ m _ => Some m
  | _ => None
  end.

Definition empty_world : world := {| kv := ∅; trace := [] |}.

Definition both_keys : Bindings :=
  {| GROQ_API_KEY := Some "gk"; GEMINI_API_KEY := Some "mk" |}.

Definition groq_only : Bindings :=
  {| GROQ_API_KEY := Some "gk"; GEMINI_API_KEY := None |}.

Definition json_ok (v : jsval) : fetch_outcome :=
  Responded {| status := 200; res_text := Some ""; res_json := Parsed v |}.

Definition http_fail (st : Z) (t : string) : fetch_outcome :=
  Responded {| status := st; res_text := Some t; res_json := ParseError "SyntaxError: Unexpected token" |}.

Definition groq_listing (ids : list string) : jsval :=
  JObj [("data", JArr (map (fun i => JObj [("id", JStr i)]) ids))].

Definition gemini_listing (ids : list string) : jsval :=
  JObj [("models", JArr (map (fun i => JObj [("name", JStr ("models/" +:+ i))]) ids))].

Definition groq_answer (content : jsval) : jsval :=
  JObj [("choices", JArr [JObj [("message", JObj [("role", JStr "assistant"); ("content", content)])]])].

Definition gemini_answer (texts : list string) : jsval :=
  JObj [("candidates",
         JArr [JObj [("content", JObj [("parts", JArr (map (fun t => JObj [("text", JStr t)]) texts))])]])].

(** A network given by what each endpoint answers; a chat endpoint's
    answer may depend on how many chat calls it has already received. *)
Definition scripted (groq_models gemini_models : fetch_outcome)
    (groq_chat gemini_chat : nat -> fetch_outcome) : network :=
  fun history rq =>
    match rq with
    | GroqModels _ => groq_models
    | GeminiModels _ => gemini_models
    | GroqChat _ _ => groq_chat (length (List.filter is_groq_chat history))
    | GeminiGenerate _ _ _ =>
        gemini_chat (length (List.filter (fun r => is_chat r && is_gemini r) history))
    end.

Definition hello : jsval := JArr [msg "user" "hello"].

(** Provider A answers 500; provider B lists one model and answers. *)
Definition net_groq_down : network :=
  scripted (json_ok (groq_listing ["llama-3.1-8b-instant"]))
           (json_ok (gemini_listing ["gemini-2.5-flash"]))
           (fun _ => http_fail 500 "internal error")
           (fun _ => json_ok (gemini_answer ["hi from B"])).

Definition no_fallback_request : http_request :=
  {| client_id := Some "alice";
     req_json := Parsed (JObj [("provider", JStr "auto"); ("enable_fallback", JBool false);
                               ("messages", hello)]) |}.

(** Provider A lists the requested model, answers 404 to the first chat
    call and succeeds on the second. *)
Definition net_listed_but_404 : network :=
  scripted (json_ok (groq_listing ["llama-3.1-8b-instant"; "llama-3.3-70b-versatile"]))
           (Rejected "TypeError: fetch failed")
           (fun n => match n with
                     | O => http_fail 404 "model not found"
                     | _ => json_ok (groq_answer (JStr "hi from A"))
                     end)
           (fun _ => Rejected "TypeError: fetch failed").

(** The notice provider A sends for a model it has withdrawn. *)
Definition decommission_notice : string :=
  "The model `llama-3.1-8b-instant` has been decommissioned and is no longer supported.".

(** Provider A lists its models and answers the first chat call with 400
    and the notice; once a chat call has been made its listing cannot be
    reached any more, while its chat endpoint would answer. *)
Definition net_relisting_unreachable : network :=
  fun history rq =>
    match rq with
    | GroqModels _ =>
        if existsb is_groq_chat history then Rejected "TypeError: fetch failed"
        else json_ok (groq_listing ["llama-3.1-8b-instant"; "llama-3.3-70b-versatile"])
    | GroqChat _ _ =>
        match List.filter is_groq_chat history with
        | [] => http_fail 400 decommission_notice
        | _ => json_ok (groq_answer (JStr "hi from A"))
        end
    | _ => Rejected "TypeError: fetch failed"
    end.

(** Provider B lists two models, answers the first chat call with 400
    and a notice in capitals, and succeeds on the second. *)
Definition net_withdrawn_once : network :=
  scripted (Rejected "TypeError: fetch failed")
           (json_ok (gemini_listing ["gemini-2.5-flash"; "gemini-2.5-pro"]))
           (fun _ => Rejected "TypeError: fetch failed")
           (fun n => match n with
                     | O => http_fail 400 "MODEL gemini-2.5-flash NOT FOUND"
                     | _ => json_ok (gemini_answer ["hi from B"])
                     end).

Definition explicit_groq_request : http_request :=
  {| client_id := Some "alice";
     req_json := Parsed (JObj [("provider", JStr "groq"); ("model", JStr "llama-3.1-8b-instant");
                               ("messages", hello)]) |}.

(** Provider A answers with a blank text. *)
Definition net_blank_answer : network :=
  scripted (json_ok (groq_listing ["llama-3.1-8b-instant"]))
           (json_ok (gemini_listing ["gemini-2.5-flash"]))
           (fun _ => json_ok (groq_answer (JStr "   ")))
           (fun _ => json_ok (gemini_answer ["   "])).

Definition plain_groq_request : http_request :=
  {| client_id := None;
     req_json := Parsed (JObj [("provider", JStr "groq"); ("messages", hello)]) |}.

Definition plain_gemini_request : http_request :=
  {| client_id := None;
     req_json := Parsed (JObj [("provider", JStr "gemini"); ("messages", hello)]) |}.

(** The model listings cannot be reached; the chat endpoints would answer. *)
Definition net_catalog_unreachable : network :=
  scripted (Rejected "TypeError: fetch failed")
           (Rejected "TypeError: fetch failed")
           (fun _ => json_ok (groq_answer (JStr "hi from A")))
           (fun _ => json_ok (gemini_answer ["hi from B"])).

(** The two provider clients side by side. *)
Inductive provider : Type := Groq | Gemini.

Definition tag (p : provider) : string :=
  match p with Groq => "groq" | Gemini => "gemini" end.

Definition secret (p : provider) (env : Bindings) : option string :=
  match p with Groq => GROQ_API_KEY env | Gemini => GEMINI_API_KEY env end.

Definition call (net : network) (p : provider) : Bindings -> jsval -> Preset -> M jsval :=
  match p with Groq => callGroq net | Gemini => callGemini net end.

Definition resolve (net : network) (p : provider) : Bindings -> jsval -> Preset -> M string :=
  match p with Groq => resolveGroqModel net | Gemini => resolveGeminiModel net end.

(** The chat-completion request a client sends for [body] with model [m]. *)
Definition attempt (p : provider) (env : Bindings) (body : jsval) (m : string) : request :=
  match p with
  | Groq =>
      GroqChat (key_of (GROQ_API_KEY env))
        {| model := m;
           messages := nullish (get "messages" body) (JArr []);
           req_temperature := nullish (get "temperature" body) (JFrac "0.7");
           max_tokens := get "max_tokens" body;
           stream := false |}
  | Gemini => GeminiGenerate (key_of (GEMINI_API_KEY env)) m (gemini_body_of body)
  end.

(** Whether a client, once the model is resolved, gets as far as its
    first attempt: provider B's translates the body first, and that
    throws unless every content it converts can be converted. *)
Definition sendable (p : provider) (body : jsval) : bool :=
  match p with
  | Groq => true
  | Gemini => convertible (messages_of body)
  end.

(** What each provider makes of the response to its listing call, its
    priority list for a preset, and its hardcoded default. *)
Definition catalog (p : provider) (r : response) : list string :=
  match p with Groq => groq_catalog r | Gemini => gemini_catalog r end.

Definition priority (p : provider) (preset : Preset) : list string :=
  match p with Groq => groq_priority preset | Gemini => gemini_priority preset end.

Definition default_model (p : provider) : string :=
  match p with Groq => GROQ_DEFAULT | Gemini => GEMINI_DEFAULT end.

(** The listing request a resolution sends. *)
Definition listing (p : provider) (env : Bindings) : request :=
  match p with
  | Groq => GroqModels (key_of (GROQ_API_KEY env))
  | Gemini => GeminiModels (key_of (GEMINI_API_KEY env))
  end.

(** What a client makes of a successful (2xx) response. *)
Definition outcome (p : provider) (res : response) : result jsval :=
  match res_json res with
  | ParseError e => Throw ("Error: " +:+ tag p +:+ "_json:" +:+ e)
  | Parsed json =>
      match p with
      | Groq =>
          if negb (truthy (groq_text json)) || negb (is_string (groq_text json))
          then Throw "Error: groq_empty"
          else Ok (toOpenAIResponse (groq_text json))
      | Gemini =>
          match gemini_text json with
          | None => Throw type_error
          | Some txt =>
              if negb (str_truthy txt) then Throw "Error: gemini_empty"
              else Ok (toOpenAIResponse (JStr txt))
          end
      end
  end.

(** The world once a request has been sent. *)
Definition logged (w : world) (rq : request) : world :=
  {| kv := kv w; trace := trace w ++ [rq] |}.

(** The inbound request with a well-formed body. *)
Definition post (cid : option string) (body : jsval) : http_request :=
  {| client_id := cid; req_json := Parsed body |}.

Definition header_id (cid : option string) : string :=
  match cid with Some h => h | None => "anon" end.

(** A successful call becomes a 200; a failed one the given error. *)
Definition answer (r : result jsval * world) (code : Z) (prefix : string)
    : result http_response * world :=
  match r with
  | (Ok out, w') => (Ok (success_json out), w')
  | (Throw e, w') => (Ok (error_json code (prefix +:+ e)), w')
  end.

End Scenario.
Import Scenario.

(** ** The health endpoint *)

Module Health.

(** [GET /health].  The store is written once; [put_outcome] is [None]
    when that write succeeds and [Some e] when it is rejected with an
    error printing as [e]. *)
Definition health (env : Bindings) (now : Z) (put_outcome : option string) : M http_response :=
  let! kv_fields :=
    try_catch
      (let! _ := (match put_outcome with
                  | None => kv_put now "health" "1" 60
                  | Some e => throw e
                  end) in
       ret [("kv", JStr "ok")])
      (fun e => ret [("kv", JStr "error"); ("kv_error", JStr e)]) in
  ret {| code := 200;
         payload :=
           JObj ([("ok", JBool true)] ++ kv_fields ++
                 [("groq_secret", JBool (configured (GROQ_API_KEY env)));
                  ("gemini_secret", JBool (configured (GEMINI_API_KEY env)))]) |}.

End Health.
Import Health.

(** ** Readings of requests, messages and texts used in further statements *)

Module Reading.

(** The provider a request goes to and the API key it carries. *)
Definition sent_to (rq : request) : provider :=
  match rq with
  | GroqModels _ | GroqChat _ _ => Groq
  | GeminiModels _ | GeminiGenerate _ _ _ => Gemini
  end.

Definition key_sent (rq : request) : string :=
  match rq with
  | GroqModels k | GeminiModels k | GroqChat k _ | GeminiGenerate k _ _ => k
  end.

(** A message the translation keeps, and the turn a kept message that is
    not a system message becomes when no prefix is pending. *)
Definition kept (m : jsval) : bool := truthy (get "role" m) && truthy (get "content" m).

Definition is_system (m : jsval) : bool := eq_str (get "role" m) "system".

Definition turn_of (m : jsval) : turn :=
  Turn (if eq_str (get "role" m) "assistant" then "model" else "user")
       (String_ (get "content" m)).

(** First and last character of a text. *)
Definition first_char (s : string) : option ascii :=
  match s with String c _ => Some c | EmptyString => None end.

Fixpoint last_char (s : string) : option ascii :=
  match s with
  | EmptyString => None
  | String c EmptyString => Some c
  | String _ rest => last_char rest
  end.

Definition blank_char (c : option ascii) : bool :=
  match c with Some c => is_ws c | None => false end.

(** The same client calling at each of the given instants. *)
Definition calls_of (id : string) (times : list Z) : list (string * Z) :=
  map (fun t => (id, t)) times.

End Reading.
Import Reading.

Module Shape.

(** The requests one provider call can make, in order: the listing, an
    attempt, and after a decommissioned classification the listing again
    and one more attempt. *)
Definition from_call (p : provider) (env : Bindings) (body : jsval) (extra : list request) : Prop :=
  exists m m',
    extra `prefix_of` [listing p env; attempt p env body m; listing p env; attempt p env body m'].

End Shape.
Import Shape.

Module Cases.

Definition no_keys : Bindings := {| GROQ_API_KEY := None; GEMINI_API_KEY := None |}.

Definition gemini_only : Bindings := {| GROQ_API_KEY := None; GEMINI_API_KEY := Some "mk" |}.

(** Both providers list their default model and answer. *)
Definition net_all_up : network :=
  scripted (json_ok (groq_listing ["llama-3.1-8b-instant"]))
           (json_ok (gemini_listing ["gemini-2.5-flash"]))
           (fun _ => json_ok (groq_answer (JStr "hi from A")))
           (fun _ => json_ok (gemini_answer ["hi from B"])).

(** Provider A's chat endpoint cannot be reached. *)
Definition net_groq_chat_unreachable : network :=
  scripted (json_ok (groq_listing ["llama-3.1-8b-instant"]))
           (json_ok (gemini_listing ["gemini-2.5-flash"]))
           (fun _ => Rejected "TypeError: fetch failed")
           (fun _ => json_ok (gemini_answer ["hi from B"])).

Definition auto_request : http_request :=
  {| client_id := Some "alice"; req_json := Parsed (JObj [("messages", hello)]) |}.

(** A body with a message whose content [String] cannot convert: an
    object with an own property [toString]. *)
Definition unconvertible_body : jsval :=
  JObj [("messages",
         JArr [JObj [("role", JStr "user"); ("content", JObj [("toString", JNum 1)])]])].

End Cases.
Import Cases.

(** ** The two earlier variants kept in [src/index.ts] *)

(** Both earlier variants send one chat request per provider call, with
    whatever [body.model] holds; they have no model listing and no retry.
    Their world is the store and the log of these requests.  The Gemini
    URL embeds [encodeURIComponent(model)]; the request records the text
    that [model] converts to. *)
Module Early.

Inductive request : Type :=
  | GroqChat (key : string) (model messages temperature max_tokens : jsval)
  | GeminiGenerate (key : string) (model : string) (body : gemini_body).

Definition network : Type := list request -> request -> fetch_outcome.

Record world : Type := World {
  kv : gmap string (string * Z);
  trace : list request
}.

Definition M (A : Type) : Type := world -> result A * world.

Definition ret {A} (a : A) : M A := fun w => (Ok a, w).

Definition throw {A} (e : string) : M A := fun w => (Throw e, w).

Definition bind {A B} (c : M A) (k : A -> M B) : M B :=
  fun w =>
    match c w with
    | (Ok a, w') => k a w'
    | (Throw e, w') => (Throw e, w')
    end.

Definition try_catch {A} (c : M A) (h : string -> M A) : M A :=
  fun w =>
    match c w with
    | (Ok a, w') => (Ok a, w')
    | (Throw e, w') => h e w'
    end.

Definition throw_Error {A} (msg : string) : M A := throw ("Error: " +:+ msg).

Definition converted {A} (o : option A) : M A :=
  match o with Some a => ret a | None => throw type_error end.

Definition kv_get (now : Z) (k : string) : M (option string) :=
  fun w =>
    (Ok match kv w !! k with
        | Some (v, expires) => if now <? expires then Some v else None
        | None => None
        end, w).

Definition kv_put (now : Z) (k v : string) (ttl_seconds : Z) : M unit :=
  fun w => (Ok tt, {| kv := <[k := (v, now + 1000 * ttl_seconds)]> (kv w); trace := trace w |}).

Definition fetch (net : network) (rq : request) : M response :=
  fun w =>
    let w' := {| kv := kv w; trace := trace w ++ [rq] |} in
    match net (trace w) rq with
    | Rejected e => (Throw e, w')
    | Responded r => (Ok r, w')
    end.

Declare Scope early_scope.
Notation "'let!' x ':=' c 'in' k" := (bind c (fun x => k))
  (at level 10, x name, c at level 100, k at level 200) : early_scope.
Local Open Scope early_scope.

(** The rate limiter, the same in every variant. *)
Definition rateLimit (id : string) (now : Z) : M bool :=
  let b := bucket id now in
  let! stored := kv_get now b in
  let current := num_succ (parseInt (match stored with Some v => v | None => "0" end)) in
  let! _ := kv_put now b (num_String current) 660 in
  ret (num_le current 60).

Definition is_gemini (rq : request) : bool :=
  match rq with GeminiGenerate _ _ _ => true | GroqChat _ _ _ _ _ => false end.

(** The one request each client sends for [body]. *)
Definition groq_request (env : Bindings) (body : jsval) : request :=
  GroqChat (key_of (GROQ_API_KEY env))
    (nullish (get "model" body) (JStr "llama-3.1-70b-versatile"))
    (nullish (get "messages" body) (JArr []))
    (nullish (get "temperature" body) (JFrac "0.7"))
    (get "max_tokens" body).

(** [body?.model ?? 'gemini-1.5-pro'], which [encodeURIComponent] converts. *)
Definition gemini_model (body : jsval) : jsval :=
  nullish (get "model" body) (JStr "gemini-1.5-pro").

Definition gemini_request (env : Bindings) (body : jsval) : request :=
  GeminiGenerate (key_of (GEMINI_API_KEY env))
    (String_ (gemini_model body))
    (gemini_body_of body).

(** Whether provider B's client gets as far as its request: the model
    and every content the translation converts can be converted. *)
Definition sendable (body : jsval) : bool :=
  converts (gemini_model body) && convertible (messages_of body).

(** [Boolean(body?.enable_fallback ?? true)]. *)
Definition fallback_of (body : jsval) : bool :=
  truthy (nullish (get "enable_fallback" body) (JBool true)).

End Early.

(** The variant of lines 1-231 (its health probe is not modelled). *)
Module Variant1.
Import Early.
Local Open Scope early_scope.

Section Network.

Variable net : Early.network.

Definition callGroq (env : Bindings) (body : jsval) : Early.M jsval :=
  if negb (configured (GROQ_API_KEY env)) then throw_Error "groq_key_missing" else
  let! res := fetch net (groq_request env body) in
  if negb (ok res) then throw_Error (http_error "groq" res) else
  let! json :=
    (match res_json res with
     | Parsed v => ret v
     | ParseError e => throw_Error ("groq_json:" +:+ e)
     end) in
  let txt := groq_text json in
  if negb (truthy txt) || negb (is_string txt) then throw_Error "groq_empty"
  else ret (toOpenAIResponse txt).

Definition callGemini (env : Bindings) (body : jsval) : Early.M jsval :=
  if negb (configured (GEMINI_API_KEY env)) then throw_Error "gemini_key_missing" else
  let! model := converted (ToString (gemini_model body)) in
  let! gemBody := converted (openAIToGeminiBody body) in
  let! res := fetch net (GeminiGenerate (key_of (GEMINI_API_KEY env)) model gemBody) in
  if negb (ok res) then throw_Error (http_error "gemini" res) else
  let! json :=
    (match res_json res with
     | Parsed v => ret v
     | ParseError e => throw_Error ("gemini_json:" +:+ e)
     end) in
  let! txt := converted (gemini_text json) in
  if negb (str_truthy txt) then throw_Error "gemini_empty"
  else ret (toOpenAIResponse (JStr txt)).

Definition chat (env : Bindings) (now : Z) (rq : http_request) : Early.M http_response :=
  try_catch
    (let clientId := match client_id rq with Some h => h | None => "anon" end in
     let! allowed := rateLimit clientId now in
     if negb allowed then ret (error_json 429 "rate_limited") else
     let! body :=
       (match req_json rq with Parsed v => ret v | ParseError e => throw e end) in
     let provider := nullish (get "provider" body) (JStr "auto") in
     let fallback := fallback_of body in
     if eq_str provider "groq" then
       try_catch
         (let! out := callGroq env body in ret (success_json out))
         (fun e => ret (error_json 502 ("groq_failed:" +:+ e)))
     else if eq_str provider "gemini" then
       try_catch
         (let! out := callGemini env body in ret (success_json out))
         (fun e => ret (error_json 502 ("gemini_failed:" +:+ e)))
     else
       try_catch
         (let! out := callGroq env body in ret (success_json out))
         (fun e1 =>
            if fallback && configured (GEMINI_API_KEY env) then
              try_catch
                (let! out := callGemini env body in ret (success_json out))
                (fun e2 => ret (error_json 500 ("fallback_failed:" +:+ e2)))
            else ret (error_json 502 ("groq_failed_no_fallback:" +:+ e1))))
    (fun e => ret (error_json 500 ("server_error:" +:+ e))).

End Network.

End Variant1.

(** The variant of lines 232-376. *)
Module Variant2.
Import Early.
Local Open Scope early_scope.

Section Network.

Variable net : Early.network.

Definition callGroq (env : Bindings) (body : jsval) : Early.M jsval :=
  if negb (configured (GROQ_API_KEY env)) then throw_Error "groq_key_missing" else
  let! res := fetch net (groq_request env body) in
  if negb (ok res) then throw_Error ("groq_http_" +:+ string_of_int (status res)) else
  let! json := (match res_json res with Parsed v => ret v | ParseError e => throw e end) in
  let txt := groq_text json in
  if negb (is_string txt) || negb (str_truthy (trim (String_ txt))) then throw_Error "groq_empty"
  else ret (toOpenAIResponse txt).

Definition callGemini (env : Bindings) (body : jsval) : Early.M jsval :=
  if negb (configured (GEMINI_API_KEY env)) then throw_Error "gemini_key_missing" else
  let! model := converted (ToString (gemini_model body)) in
  let! gemBody := converted (openAIToGeminiBody body) in
  let! res := fetch net (GeminiGenerate (key_of (GEMINI_API_KEY env)) model gemBody) in
  if negb (ok res) then throw_Error ("gemini_http_" +:+ string_of_int (status res)) else
  let! json := (match res_json res with Parsed v => ret v | ParseError e => throw e end) in
  let! txt := converted (gemini_text json) in
  if negb (str_truthy txt) then throw_Error "gemini_empty"
  else ret (toOpenAIResponse (JStr txt)).

Definition chat (env : Bindings) (now : Z) (rq : http_request) : Early.M http_response :=
  try_catch
    (let clientId := match client_id rq with Some h => h | None => "anon" end in
     let! allowed := rateLimit clientId now in
     if negb allowed then ret (error_json 429 "rate_limited") else
     let! body :=
       (match req_json rq with Parsed v => ret v | ParseError e => throw e end) in
     let provider := nullish (get "provider" body) (JStr "auto") in
     let fallback := fallback_of body in
     if eq_str provider "groq" then
       let! out := callGroq env body in ret (success_json out)
     else if eq_str provider "gemini" then
       let! out := callGemini env body in ret (success_json out)
     else
       try_catch
         (let! out := callGroq env body in ret (success_json out))
         (fun _ =>
            if fallback && configured (GEMINI_API_KEY env) then
              try_catch
                (let! out := callGemini env body in ret (success_json out))
                (fun _ => ret (error_json 500 "both_providers_failed"))
            else ret (error_json 502 "groq_failed_no_fallback")))
    (fun _ => ret (error_json 500 "server_error")).

End Network.

End Variant2.

Module EarlyCases.

(** A network that gives the same outcome to every request. *)
Definition always (o : fetch_outcome) : Early.network := fun _ _ => o.

Definition early_empty : Early.world := {| Early.kv := ∅; Early.trace := [] |}.

End EarlyCases.
Import EarlyCases.

(** * Verification *)

(** ** Text *)

Lemma list_ascii_of_append (a b : string) :
  list_ascii_of_string (a +:+ b) = list_ascii_of_string a ++ list_ascii_of_string b.
Proof. induction a as [|c a IH]; simpl; [reflexivity | now rewrite IH]. Qed.


Lemma append_cancel_l (a b c : string) : c +:+ a = c +:+ b -> a = b.
Proof. induction c as [|x c IH]; simpl; intros H; [exact H | injection H; auto]. Qed.

Lemma leading_digits_string_of_uint d :
  leading_digits (NilEmpty.string_of_uint d) = d.
Proof. induction d; simpl; congruence. Qed.

Lemma string_of_pos_head p :
  exists c rest, NilEmpty.string_of_uint (Pos.to_uint p) = String c rest /\
    is_ws c = false /\ c <> "-"%char /\ c <> "+"%char.
Proof.
  pose proof (Unsigned.to_uint_nonnil p) as Hn.
  destruct (Pos.to_uint p) eqn:E; [congruence | ..]; simpl;
    eexists _, _; (split; [reflexivity | split; [reflexivity | split; discriminate]]).
Qed.

(** [parseInt] reads back what [String] printed for a positive integer. *)
Lemma parseInt_string_of_pos p :
  parseInt (string_of_int (Z.pos p)) = Some (Z.pos p).
Proof.
  unfold parseInt, string_of_int.
  destruct (string_of_pos_head p) as (c & rest & E & Hws & Hm & Hp).
  assert (Ht : trim_start (NilEmpty.string_of_uint (Pos.to_uint p))
               = NilEmpty.string_of_uint (Pos.to_uint p)).
  { rewrite E. simpl. rewrite Hws. reflexivity. }
  rewrite Ht.
  assert (Hs : (match NilEmpty.string_of_uint (Pos.to_uint p) with
                | String "-"%char r => (true, r)
                | String "+"%char r => (false, r)
                | _ => (false, NilEmpty.string_of_uint (Pos.to_uint p))
                end) = (false, NilEmpty.string_of_uint (Pos.to_uint p))).
  { rewrite E. destruct c as [[] [] [] [] [] [] [] []]; try reflexivity; congruence. }
  rewrite Hs, leading_digits_string_of_uint.
  pose proof (Unsigned.to_uint_nonnil p) as Hn.
  pose proof (Unsigned.of_to p) as Hof.
  unfold N.of_uint.
  destruct (Pos.to_uint p) eqn:Ed; [congruence | ..]; rewrite Hof; reflexivity.
Qed.

Lemma parseInt_string_of_nonneg n :
  0 <= n -> parseInt (string_of_int n) = Some n.
Proof.
  destruct n as [|p|p]; intros H; [reflexivity | apply parseInt_string_of_pos | lia].
Qed.

(** A text made of white space only trims to nothing. *)
Lemma trim_all_ws s : all_ws s = true -> trim s = "".
Proof.
  unfold trim. induction s as [|c s IH]; simpl; [reflexivity |].
  intros H. apply andb_true_iff in H as [Hc Hs]. rewrite Hc. auto.
Qed.

(** *** The decommission pattern, read declaratively *)

Lemma prefix_ci_iff lit : forall s,
  prefix_ci lit s = true <-> exists x rest, s = x +:+ rest /\ lower_string x = lit.
Proof.
  induction lit as [|a lit IH]; intros s.
  - split; [intros _; exists "", s; split; reflexivity | reflexivity].
  - destruct s as [|c s]; cbn [prefix_ci].
    + split; [discriminate|]. intros (x & rest & Hs & Hx).
      destruct x; [discriminate Hx | discriminate Hs].
    + rewrite andb_true_iff, IH. split.
      * intros [Hc (x & rest & -> & <-)]. apply Ascii.eqb_eq in Hc. subst a.
        exists (String c x), rest. split; reflexivity.
      * intros (x & rest & Hs & Hx). destruct x as [|c' x]; [discriminate Hx|].
        cbn [lower_string] in Hx. injection Hx as <- <-.
        change (String c' x +:+ rest) with (String c' (x +:+ rest)) in Hs.
        injection Hs as <- ->. split; [apply Ascii.eqb_refl | eauto].
Qed.

Lemma after_model_iff s :
  after_model s = true <->
  exists gap kw rest,
    s = gap +:+ kw +:+ rest /\ no_line_terminator gap = true /\
    (lower_string kw = "decommissioned" \/ lower_string kw = "not found").
Proof.
  split.
  - induction s as [|c s IH]; cbn [after_model]; rewrite !orb_true_iff.
    + intros [[H | H] | H]; [| |discriminate];
        apply prefix_ci_iff in H as (kw & rest & -> & Hk);
        exists "", kw, rest; auto.
    + intros [[H | H] | H].
      * apply prefix_ci_iff in H as (kw & rest & -> & Hk). exists "", kw, rest; auto.
      * apply prefix_ci_iff in H as (kw & rest & -> & Hk). exists "", kw, rest; auto.
      * destruct (is_line_terminator c) eqn:Hc; [discriminate|].
        destruct (IH H) as (gap & kw & rest & -> & Hg & Hk).
        exists (String c gap), kw, rest. split; [reflexivity|]. split; [|exact Hk].
        cbn [no_line_terminator]. now rewrite Hc.
  - intros (gap & kw & rest & -> & Hg & Hk). induction gap as [|c gap IH].
    + change ("" +:+ kw +:+ rest) with (kw +:+ rest).
      assert (H : prefix_ci "decommissioned" (kw +:+ rest) = true \/
                  prefix_ci "not found" (kw +:+ rest) = true)
        by (destruct Hk as [Hk | Hk]; [left | right]; apply prefix_ci_iff; eauto).
      destruct (kw +:+ rest); cbn [after_model]; rewrite !orb_true_iff; auto.
    + cbn [no_line_terminator] in Hg. apply andb_true_iff in Hg as [Hc Hg].
      change (String c gap +:+ kw +:+ rest) with (String c (gap +:+ kw +:+ rest)).
      cbn [after_model]. apply negb_true_iff in Hc. rewrite Hc, (IH Hg).
      now rewrite orb_true_r.
Qed.

Lemma drop_length_append x rest : drop (String.length x) (x +:+ rest) = rest.
Proof. induction x as [|c x IH]; [now destruct rest | exact IH]. Qed.

Lemma lower_string_length s : String.length (lower_string s) = String.length s.
Proof. induction s as [|c s IH]; [reflexivity | cbn; now rewrite IH]. Qed.

(** [decommission_pattern s] holds exactly when [s] contains [model] in
    any letter case, then any characters other than line terminators,
    then [decommissioned] or [not found] in any letter case. *)
Lemma decommission_pattern_iff s :
  decommission_pattern s = true <->
  exists pre mdl gap kw rest,
    s = pre +:+ mdl +:+ gap +:+ kw +:+ rest /\
    lower_string mdl = "model" /\ no_line_terminator gap = true /\
    (lower_string kw = "decommissioned" \/ lower_string kw = "not found").
Proof.
  assert (Hhere : forall s,
            prefix_ci "model" s && after_model (drop 5 s) = true <->
            exists mdl gap kw rest,
              s = mdl +:+ gap +:+ kw +:+ rest /\
              lower_string mdl = "model" /\ no_line_terminator gap = true /\
              (lower_string kw = "decommissioned" \/ lower_string kw = "not found")).
  { intros t. rewrite andb_true_iff. split.
    - intros [Hm Ha]. apply prefix_ci_iff in Hm as (mdl & tl & -> & Hm).
      assert (Hl : String.length mdl = 5%nat)
        by (now rewrite <- lower_string_length, Hm).
      rewrite <- Hl, drop_length_append in Ha.
      apply after_model_iff in Ha as (gap & kw & rest & -> & Hg & Hk).
      exists mdl, gap, kw, rest. auto.
    - intros (mdl & gap & kw & rest & -> & Hm & Hg & Hk).
      assert (Hl : String.length mdl = 5%nat)
        by (now rewrite <- lower_string_length, Hm).
      split; [apply prefix_ci_iff; eauto|].
      rewrite <- Hl, drop_length_append. apply after_model_iff. eauto 6. }
  split.
  - induction s as [|c s IH]; cbn [decommission_pattern]; rewrite orb_true_iff.
    + intros [H | H]; [|discriminate]. apply Hhere in H as (mdl & gap & kw & rest & H).
      exists "", mdl, gap, kw, rest. exact H.
    + intros [H | H].
      * apply Hhere in H as (mdl & gap & kw & rest & H). exists "", mdl, gap, kw, rest. exact H.
      * destruct (IH H) as (pre & mdl & gap & kw & rest & -> & Hrest).
        exists (String c pre), mdl, gap, kw, rest. split; [reflexivity | exact Hrest].
  - intros (pre & mdl & gap & kw & rest & -> & Hm & Hg & Hk). induction pre as [|c pre IH].
    + change ("" +:+ mdl +:+ gap +:+ kw +:+ rest) with (mdl +:+ gap +:+ kw +:+ rest).
      assert (H : prefix_ci "model" (mdl +:+ gap +:+ kw +:+ rest)
                  && after_model (drop 5 (mdl +:+ gap +:+ kw +:+ rest)) = true)
        by (apply Hhere; eauto 8).
      destruct (mdl +:+ gap +:+ kw +:+ rest); cbn [decommission_pattern]; rewrite H; reflexivity.
    + change (String c pre +:+ mdl +:+ gap +:+ kw +:+ rest)
        with (String c (pre +:+ mdl +:+ gap +:+ kw +:+ rest)).
      cbn [decommission_pattern]. rewrite IH. apply orb_true_r.
Qed.

(** ** Rate limiter *)

Section RateLimit.

(** What one call does: the counter read, incremented, stored for 660 s,
    and compared with 60. *)
Lemma rateLimit_run id now w :
  let cur := num_succ (parseInt (match stored now (bucket id now) w with
                                 | Some v => v | None => "0" end)) in
  rateLimit id now w =
    (Ok (num_le cur 60),
     {| kv := <[bucket id now := (num_String cur, now + 660000)]> (kv w);
        trace := trace w |}).
Proof. reflexivity. Qed.

(** A stored value [parseInt] cannot read makes the counter [NaN]: the
    call is rejected and ["NaN"] is stored. *)
Lemma rateLimit_unparseable id now w v :
  stored now (bucket id now) w = Some v -> parseInt v = None ->
  fst (rateLimit id now w) = Ok false /\
  stored now (bucket id now) (snd (rateLimit id now w)) = Some "NaN".
Proof.
  intros Hv Hp. rewrite rateLimit_run, Hv, Hp. split; [reflexivity|].
  unfold stored. cbn [snd kv]. rewrite lookup_insert_eq.
  assert ((now <? now + 660000) = true) as -> by (apply Z.ltb_lt; lia). reflexivity.
Qed.

Lemma bucket_in_window id W t :
  t / 600000 = W -> bucket id t = "rl:" +:+ client id +:+ ":" +:+ string_of_int W.
Proof. intros <-. reflexivity. Qed.


Lemma same_window_alive W t t' : t / 600000 = W -> t' / 600000 = W -> (t <? t' + 660000) = true.
Proof.
  intros H H'. apply Z.ltb_lt.
  pose proof (Z.div_mod t 600000 ltac:(lia)). pose proof (Z.mod_pos_bound t 600000 ltac:(lia)).
  pose proof (Z.div_mod t' 600000 ltac:(lia)). pose proof (Z.mod_pos_bound t' 600000 ltac:(lia)).
  lia.
Qed.



End RateLimit.



Lemma served_nonneg id calls : 0 <= served id calls.
Proof. unfold served. lia. Qed.




(** ** Message translation *)

Section Translation.

Lemma loop_app st l1 l2 : loop st (l1 ++ l2) = loop (loop st l1) l2.
Proof. apply fold_left_app. Qed.

Lemma step_dropped st m :
  truthy (get "role" m) && truthy (get "content" m) = false -> step st m = st.
Proof.
  intros H. destruct st as [p out]. unfold step.
  destruct (truthy (get "role" m)), (truthy (get "content" m)); simpl in *; congruence.
Qed.



Lemma append_cons c s t : String c s +:+ t = String c (s +:+ t).
Proof. reflexivity. Qed.

Lemma append_empty_r s : s +:+ "" = s.
Proof. induction s as [|c s IH]; [reflexivity | now rewrite append_cons, IH]. Qed.












End Translation.

(** *** The conversions of the translation *)

(** The loop body throws exactly on a message it keeps whose content
    cannot be converted, and otherwise makes the step [step]. *)
Lemma convert_step_spec st m :
  convert_step st m =
    if negb (truthy (get "role" m) && truthy (get "content" m)) || converts (get "content" m)
    then Some (step st m) else None.
Proof.
  destruct st as [p out]. unfold convert_step, step, ToString.
  destruct (truthy (get "role" m)), (truthy (get "content" m)); cbn [negb orb andb];
    try reflexivity.
  destruct (converts (get "content" m)), (eq_str (get "role" m) "system"); try reflexivity.
  destruct (str_truthy p && String.eqb _ "user"); reflexivity.
Qed.

Lemma convert_loop_spec ms : forall st,
  convert_loop st ms = if convertible ms then Some (loop st ms) else None.
Proof.
  induction ms as [|m ms IH]; intros st; [reflexivity|].
  cbn [convert_loop convertible forallb loop fold_left]. rewrite convert_step_spec.
  destruct (negb _ || converts _); cbn [andb]; [apply IH | reflexivity].
Qed.

(** [openAIToGeminiBody] throws exactly when a content it converts cannot
    be converted, and otherwise returns the translation. *)
Lemma openAIToGeminiBody_spec body :
  openAIToGeminiBody body =
    if convertible (messages_of body) then Some (gemini_body_of body) else None.
Proof.
  unfold openAIToGeminiBody. rewrite convert_loop_spec.
  destruct (convertible _); reflexivity.
Qed.

(** Whenever [openAIToGeminiBody] returns, its contents are
    [translate_messages] of the messages. *)
Lemma openAIToGeminiBody_contents body ms b :
  get "messages" body = JArr ms -> openAIToGeminiBody body = Some b ->
  contents b = translate_messages ms.
Proof.
  intros Hm. rewrite openAIToGeminiBody_spec. destruct (convertible _); [|discriminate].
  intros [= <-]. cbn [gemini_body_of contents]. unfold messages_of. now rewrite Hm.
Qed.

(** Contents that are strings can always be converted. *)
Lemma convertible_strings ms :
  forallb (fun m => negb (truthy (get "role" m) && truthy (get "content" m))
                    || is_string (get "content" m)) ms = true ->
  convertible ms = true.
Proof.
  unfold convertible. rewrite !forallb_forall. intros H m Hin. specialize (H m Hin).
  apply orb_true_iff in H as [H | H]; [now rewrite H|].
  destruct (get "content" m); try discriminate H. apply orb_true_r.
Qed.

Lemma to_strings_spec l :
  to_strings l = if forallb converts l then Some (map String_ l) else None.
Proof.
  induction l as [|x l IH]; [reflexivity|]. cbn [to_strings forallb map]. unfold ToString.
  rewrite IH. destruct (converts x), (forallb converts l); reflexivity.
Qed.





(** C10.  A message whose [content] is falsy -- the empty string, [0],
    [false], [null], or no content at all -- is skipped by the
    translation whatever its role: the output is that of the sequence
    without it, so it adds no turn and nothing to the system prefix. *)
Theorem falsy_content_dropped (pre post : list jsval) (m : jsval)
    (Hfalsy : truthy (get "content" m) = false) :
  translate_messages (pre ++ m :: post) = translate_messages (pre ++ post)
  /\ Forall (fun c => truthy c = false) [JStr ""; JNum 0; JBool false; JNull; JUndefined].
Proof.
  split; [|repeat constructor].
  unfold translate_messages. rewrite !loop_app. cbn [loop fold_left].
  rewrite step_dropped; [reflexivity|]. rewrite Hfalsy. apply andb_false_r.
Qed.

Lemma falsy_content_dropped_witness :
  translate_messages ([msg "system" "S"] ++ msg "system" "" :: [msg "user" "U"])
  = translate_messages ([msg "system" "S"] ++ [msg "user" "U"]).
Proof.
  exact (proj1 (falsy_content_dropped [msg "system" "S"] [msg "user" "U"] (msg "system" "")
                  eq_refl)).
Defined.

(** ** Model resolution *)

Section Resolution.

Variable net : network.

Lemma includes_In available s : includes available (JStr s) = true <-> In s available.
Proof.
  unfold includes. rewrite existsb_exists. split.
  - intros (x & Hin & Heq). apply String.eqb_eq in Heq. now subst.
  - intros H. exists s. split; [exact H | apply String.eqb_refl].
Qed.

(** [pickFirstAvailable] returns the first priority entry in the catalog. *)
Lemma pickFirstAvailable_Some priority available p :
  pickFirstAvailable priority available = Some p ->
  exists before after, priority = before ++ p :: after /\ In p available /\
                       Forall (fun q => ~ In q available) before.
Proof.
  induction priority as [|q priority IH]; [discriminate|]. cbn [pickFirstAvailable].
  destruct (includes available (JStr q)) eqn:E.
  - intros [= <-]. exists [], priority. repeat split; [now apply includes_In | constructor].
  - intros H. destruct (IH H) as (before & after & -> & Hin & Hall).
    exists (q :: before), after. repeat split; [exact Hin|].
    constructor; [|exact Hall]. intros Hq. apply includes_In in Hq. congruence.
Qed.

Lemma pickFirstAvailable_None priority available :
  pickFirstAvailable priority available = None ->
  Forall (fun q => ~ In q available) priority.
Proof.
  induction priority as [|q priority IH]; [constructor|]. cbn [pickFirstAvailable].
  destruct (includes available (JStr q)) eqn:E; [discriminate|].
  intros H. constructor; [|auto]. intros Hq. apply includes_In in Hq. congruence.
Qed.

(** The order of resolution once the catalog is known. *)
Lemma choose_requested priority fallback s available :
  s <> "" -> In s available -> choose priority fallback (JStr s) available = s.
Proof.
  intros Hs Hin. unfold choose. cbn [truthy]. apply String.eqb_neq in Hs. rewrite Hs.
  apply includes_In in Hin. now rewrite Hin.
Qed.

Lemma choose_priority priority fallback requested available p :
  truthy requested && includes available requested = false ->
  pickFirstAvailable priority available = Some p ->
  choose priority fallback requested available = p.
Proof. intros Hr Hp. unfold choose. now rewrite Hr, Hp. Qed.

Lemma choose_first priority fallback requested available a rest :
  truthy requested && includes available requested = false ->
  pickFirstAvailable priority available = None ->
  available = a :: rest -> a <> "" ->
  choose priority fallback requested available = a.
Proof.
  intros Hr Hp -> Ha. unfold choose. rewrite Hr, Hp.
  unfold str_truthy. apply String.eqb_neq in Ha. now rewrite Ha.
Qed.

Lemma choose_empty priority fallback requested :
  choose priority fallback requested [] = fallback.
Proof.
  unfold choose. replace (includes [] requested) with false by (now destruct requested).
  rewrite andb_false_r.
  replace (pickFirstAvailable priority []) with (@None string); [reflexivity|].
  induction priority; simpl; auto.
Qed.

(** With the requested model cleared, the choice is in the catalog or is
    the hardcoded default. *)
Lemma choose_cleared priority fallback available :
  choose priority fallback JUndefined available = fallback \/
  In (choose priority fallback JUndefined available) available.
Proof.
  unfold choose. cbn [truthy andb].
  destruct (pickFirstAvailable priority available) as [p|] eqn:E.
  - right. apply pickFirstAvailable_Some in E as (? & ? & _ & Hin & _). exact Hin.
  - destruct available as [|a rest]; [now left|].
    destruct (str_truthy a); [right; now left | now left].
Qed.

(** A listing that answers with a non-success status or an unparsable
    body counts as an empty catalog. *)
Lemma groq_catalog_degrades r :
  ok r = false \/ (exists e, res_json r = ParseError e) -> groq_catalog r = [].
Proof.
  unfold groq_catalog. intros [H | [e H]]; [now rewrite H|].
  rewrite H. now destruct (ok r).
Qed.

Lemma gemini_catalog_degrades r :
  ok r = false \/ (exists e, res_json r = ParseError e) -> gemini_catalog r = [].
Proof.
  unfold gemini_catalog. intros [H | [e H]]; [now rewrite H|].
  rewrite H. now destruct (ok r).
Qed.

(** One resolution: the listing call, then the choice. *)
Lemma resolve_run p env requested preset w :
  resolve net p env requested preset w =
    (match net (trace w) (listing p env) with
     | Rejected e => Throw e
     | Responded r =>
         Ok (choose (priority p preset) (default_model p) requested (catalog p r))
     end, logged w (listing p env)).
Proof.
  destruct p; cbn [resolve listing priority default_model catalog];
    unfold resolveGroqModel, resolveGeminiModel, listGroqModels, listGeminiModels,
           bind, fetch, ret, logged;
    destruct (net _ _); reflexivity.
Qed.

End Resolution.

(** ** Provider clients *)

Section Clients.

Variable net : network.

Lemma call_unconfigured p env body preset w :
  configured (secret p env) = false ->
  call net p env body preset w = (Throw ("Error: " +:+ tag p +:+ "_key_missing"), w).
Proof.
  intros H. destruct p; cbn [call secret tag] in *; unfold callGroq, callGemini;
    rewrite H; reflexivity.
Qed.

(** The whole of a provider call, by the answers of the network: the
    resolution, for provider B the translation of the body, the first
    attempt, and, on a decommissioned classification, the second
    resolution and the one retry. *)
Lemma call_run p env body preset w :
  configured (secret p env) = true ->
  call net p env body preset w =
    match resolve net p env (get "model" body) preset w with
    | (Throw e, w1) => (Throw e, w1)
    | (Ok m, w1) =>
        if negb (sendable p body) then (Throw type_error, w1) else
        let first := attempt p env body m in
        let w2 := logged w1 first in
        match net (trace w1) first with
        | Rejected e => (Throw e, w2)
        | Responded res =>
            if ok res then (outcome p res, w2)
            else if isDecommissionedHttp (status res) (text_or_empty res) then
              match resolve net p env JUndefined preset w2 with
              | (Throw e, w3) => (Throw e, w3)
              | (Ok m', w3) =>
                  let retry := attempt p env body m' in
                  let w4 := logged w3 retry in
                  match net (trace w3) retry with
                  | Rejected e => (Throw e, w4)
                  | Responded res2 =>
                      if ok res2 then (outcome p res2, w4)
                      else (Throw ("Error: " +:+ http_error (tag p) res2), w4)
                  end
              end
            else (Throw ("Error: " +:+ http_error (tag p) res), w2)
        end
    end.
Proof.
  intros H. rewrite resolve_run.
  destruct p; cbn [call secret tag attempt listing priority default_model catalog sendable] in *;
    unfold callGroq, callGemini; rewrite H, ?openAIToGeminiBody_spec; cbn [negb];
    unfold resolveGroqModel, resolveGeminiModel, listGroqModels, listGeminiModels,
           json_or_throw, converted, throw_Error, bind, fetch, ret, throw, outcome;
    repeat (cbv beta iota zeta delta
              [logged kv trace negb tag listing priority default_model catalog
               model messages req_temperature max_tokens stream];
            repeat match goal with E : _ = _ |- _ => rewrite E end;
            match goal with
            | |- context [resolve net ?p ?e ?r ?s ?w] => rewrite (resolve_run net p e r s w)
            | |- context [match net ?t ?r with _ => _ end] => destruct (net t r) eqn:?
            | |- context [if convertible ?l then _ else _] => destruct (convertible l) eqn:?
            | |- context [if ok ?r then _ else _] => destruct (ok r) eqn:?
            | |- context [if isDecommissionedHttp ?a ?b then _ else _] =>
                destruct (isDecommissionedHttp a b) eqn:?
            | |- context [match res_json ?r with _ => _ end] => destruct (res_json r) eqn:?
            | |- context [match gemini_text ?j with _ => _ end] => destruct (gemini_text j) eqn:?
            | |- context [if ?c then _ else _] => destruct c eqn:?
            end);
    cbv beta iota zeta delta [logged kv trace negb];
    repeat match goal with E : _ = _ |- _ => rewrite E end;
    reflexivity.
Qed.

End Clients.

(** ** The chat endpoint *)

Section Endpoint.

Variable net : network.

(** The handler, by the outcome of the rate limiter and of the provider
    calls. *)
Lemma chat_run env now cid body w :
  let provider := nullish (get "provider" body) (JStr "auto") in
  let preset := preset_of body in
  chat net env now (post cid body) w =
    match rateLimit (header_id cid) now w with
    | (Ok false, w0) => (Ok (error_json 429 "rate_limited"), w0)
    | (Ok true, w0) =>
        if eq_str provider "groq" then
          answer (call net Groq env body preset w0) 502 "groq_failed:"
        else if eq_str provider "gemini" then
          answer (call net Gemini env body preset w0) 502 "gemini_failed:"
        else
          match call net Groq env body preset w0 with
          | (Ok out, w1) => (Ok (success_json out), w1)
          | (Throw e1, w1) =>
              if configured (GEMINI_API_KEY env) then
                answer (call net Gemini env body preset w1) 500 "fallback_failed:"
              else (Ok (error_json 502 ("groq_failed_no_fallback:" +:+ e1)), w1)
          end
    | (Throw e, w0) => (Ok (error_json 500 ("server_error:" +:+ e)), w0)
    end.
Proof.
  intros provider preset. subst provider preset.
  unfold chat, post, header_id, try_catch, bind, answer, call.
  cbn [client_id req_json].
  destruct (rateLimit _ now w) as [[[|]|e] w0]; cbn [negb]; try reflexivity.
  unfold ret at 1.
  destruct (eq_str _ "groq").
  { destruct (callGroq net env body _ w0) as [[out|e] w1]; reflexivity. }
  destruct (eq_str _ "gemini").
  { destruct (callGemini net env body _ w0) as [[out|e] w1]; reflexivity. }
  destruct (callGroq net env body _ w0) as [[out|e] w1]; [reflexivity|].
  destruct (configured (GEMINI_API_KEY env)); [|reflexivity].
  destruct (callGemini net env body _ w1) as [[out|e2] w2]; reflexivity.
Qed.

(** A request whose body cannot be parsed, or that is over the limit,
    ends after the rate limiter. *)
Lemma chat_unparsed env now cid e w :
  chat net env now {| client_id := cid; req_json := ParseError e |} w =
    match rateLimit (header_id cid) now w with
    | (Ok false, w0) => (Ok (error_json 429 "rate_limited"), w0)
    | (Ok true, w0) => (Ok (error_json 500 ("server_error:" +:+ e)), w0)
    | (Throw e', w0) => (Ok (error_json 500 ("server_error:" +:+ e')), w0)
    end.
Proof.
  unfold chat, header_id, try_catch, bind. cbn [client_id req_json].
  destruct (rateLimit _ now w) as [[[|]|e'] w0]; reflexivity.
Qed.

(** The handler reads six fields of the body and nothing else. *)
Lemma chat_ext env now cid b1 b2 w :
  (forall k, In k ["provider"; "preset"; "model"; "messages"; "temperature"; "max_tokens"] ->
             get k b1 = get k b2) ->
  chat net env now (post cid b1) w = chat net env now (post cid b2) w.
Proof.
  intros H.
  assert (H1 : get "provider" b1 = get "provider" b2) by (apply H; cbn; tauto).
  assert (H2 : get "preset" b1 = get "preset" b2) by (apply H; cbn; tauto).
  assert (H3 : get "model" b1 = get "model" b2) by (apply H; cbn; tauto).
  assert (H4 : get "messages" b1 = get "messages" b2) by (apply H; cbn; tauto).
  assert (H5 : get "temperature" b1 = get "temperature" b2) by (apply H; cbn; tauto).
  assert (H6 : get "max_tokens" b1 = get "max_tokens" b2) by (apply H; cbn; tauto).
  rewrite !chat_run. cbv zeta.
  unfold call, preset_of, callGroq, callGemini, openAIToGeminiBody, messages_of,
    generation_config.
  rewrite H1, H2, H3, H4, H5, H6. reflexivity.
Qed.

(** A provider call leaves the store alone and talks to its own provider
    only, starting with the model listing when its key is configured. *)
Lemma call_trace p env body preset w :
  exists extra,
    trace (snd (call net p env body preset w)) = trace w ++ extra /\
    kv (snd (call net p env body preset w)) = kv w /\
    (configured (secret p env) = false -> extra = []) /\
    (configured (secret p env) = true -> exists more, extra = listing p env :: more) /\
    contacted_gemini extra =
      match p with Groq => false | Gemini => configured (secret p env) end.
Proof.
  destruct (configured (secret p env)) eqn:Hk.
  - rewrite (call_run net p env body preset w Hk), !resolve_run.
    assert (Hg : forall l, contacted_gemini (listing p env :: l)
                           = match p with Groq => contacted_gemini l | Gemini => true end)
      by (destruct p; reflexivity).
    assert (Ha : forall m l, contacted_gemini (attempt p env body m :: l)
                             = match p with Groq => contacted_gemini l | Gemini => true end)
      by (destruct p; reflexivity).
    repeat (cbv beta iota zeta delta [logged];
            match goal with
            | |- context [resolve net ?p ?e ?r ?s ?w] => rewrite (resolve_run net p e r s w)
            | |- context [match net ?t ?r with _ => _ end] => destruct (net t r)
            | |- context [if ?c then _ else _] => destruct c
            end);
      cbn [snd kv trace]; rewrite <- ?app_assoc; cbn [app];
      (eexists; split; [reflexivity|]; split; [reflexivity|]; split; [discriminate|];
       split; [intros _; eexists; reflexivity|]);
      rewrite ?Hg, ?Ha; first [reflexivity | destruct p; reflexivity].
  - rewrite (call_unconfigured net p env body preset w Hk). cbn [snd].
    exists []. rewrite app_nil_r. repeat split; auto; [discriminate | now destruct p].
Qed.

End Endpoint.

(** ** The claims about the endpoint *)

Lemma answer_kv r c pre : kv (snd (answer r c pre)) = kv (snd r).
Proof. destruct r as [[out|e] w']; reflexivity. Qed.

Lemma answer_trace r c pre : trace (snd (answer r c pre)) = trace (snd r).
Proof. destruct r as [[out|e] w']; reflexivity. Qed.

(** Whatever else the handler does, the store is as the rate limiter
    left it. *)
Lemma chat_kv net env now rq w :
  kv (snd (chat net env now rq w))
    = kv (snd (rateLimit (header_id (client_id rq)) now w)).
Proof.
  destruct rq as [cid [e|body]].
  - rewrite chat_unparsed. cbn [client_id].
    destruct (rateLimit _ now w) as [[[|]|e'] w0]; reflexivity.
  - change {| client_id := cid; req_json := Parsed body |} with (post cid body).
    rewrite chat_run. cbv zeta. cbn [client_id post].
    destruct (rateLimit _ now w) as [[[|]|e'] w0]; try reflexivity. cbn [snd].
    destruct (eq_str _ "groq").
    { rewrite answer_kv. now destruct (call_trace net Groq env body (preset_of body) w0)
        as (? & _ & -> & _). }
    destruct (eq_str _ "gemini").
    { rewrite answer_kv. now destruct (call_trace net Gemini env body (preset_of body) w0)
        as (? & _ & -> & _). }
    destruct (call_trace net Groq env body (preset_of body) w0) as (? & _ & Hkv & _).
    destruct (call net Groq env body (preset_of body) w0) as [[out|e1] w1];
      cbn [snd] in *; [exact Hkv|].
    destruct (configured (GEMINI_API_KEY env)); [|exact Hkv].
    rewrite answer_kv.
    destruct (call_trace net Gemini env body (preset_of body) w1) as (? & _ & -> & _).
    exact Hkv.
Qed.

(** C9.  The handler runs the rate limiter before it reads the body.
    Let the client's counter for the window read [n]: the bucket holds a
    text that [parseInt] reads as [n] -- the decimal text of [n], for
    one -- or holds nothing, which counts as 0.  Then, whatever the body,
    the handler leaves the decimal text of [n + 1] in the bucket.  A
    request whose body is not valid JSON gets [server_error] with status
    500 when [n + 1 <= 60], having been counted; a request with
    [n + 1 > 60] gets 429 whatever its body is, well-formed or not.  In
    both cases the counter is all that has changed: no provider is
    contacted. *)
Theorem rate_limit_precedes_body (net : network) (env : Bindings) (now : Z) (rq : http_request)
    (w : world) (n : Z)
    (Hcount : parseInt (match stored now (bucket (header_id (client_id rq)) now) w with
                        | Some v => v
                        | None => "0"
                        end) = Some n)
    (Hsafe : Z.abs n < 2 ^ 53) :
  let id := header_id (client_id rq) in
  let counted :=
    {| kv := <[bucket id now := (string_of_int (n + 1), now + 660000)]> (kv w);
       trace := trace w |} in
  stored now (bucket id now) (snd (chat net env now rq w)) = Some (string_of_int (n + 1))
  /\ (forall e, req_json rq = ParseError e -> n + 1 <= 60 ->
        chat net env now rq w = (Ok (error_json 500 ("server_error:" +:+ e)), counted))
  /\ (60 < n + 1 ->
        chat net env now rq w = (Ok (error_json 429 "rate_limited"), counted))
  /\ (stored now (bucket id now) w = None -> n = 0)
  /\ (forall k, 0 <= k -> stored now (bucket id now) w = Some (string_of_int k) -> n = k).
Proof.
  intros id counted.
  assert (Hrun : rateLimit id now w = (Ok (n + 1 <=? 60), counted)).
  { rewrite rateLimit_run. fold id in Hcount. rewrite Hcount. reflexivity. }
  fold id in Hcount.
  split; [|split; [|split; [|split]]]; cycle 3.
  - intros Hnone. rewrite Hnone in Hcount. now injection Hcount.
  - intros k Hk Hsome. rewrite Hsome, parseInt_string_of_nonneg in Hcount by exact Hk.
    now injection Hcount.
  - unfold stored at 1. rewrite chat_kv. fold id. rewrite Hrun. cbn [snd kv counted].
    rewrite lookup_insert_eq.
    assert ((now <? now + 660000) = true) as -> by (apply Z.ltb_lt; lia). reflexivity.
  - intros e He Hle. destruct rq as [cid body]. cbn [req_json] in He. subst body.
    rewrite chat_unparsed. cbn [client_id] in id. fold id. rewrite Hrun.
    apply Z.leb_le in Hle. now rewrite Hle.
  - intros Hgt. apply Z.leb_gt in Hgt.
    destruct rq as [cid [e|body]]; cbn [client_id] in id.
    + rewrite chat_unparsed. fold id. now rewrite Hrun, Hgt.
    + change {| client_id := cid; req_json := Parsed body |} with (post cid body).
      rewrite chat_run. cbv zeta. fold id. now rewrite Hrun, Hgt.
Qed.

Lemma rate_limit_precedes_body_witness :
  chat net_groq_down both_keys 1000
       {| client_id := Some "alice"; req_json := ParseError "SyntaxError: Unexpected end of JSON input" |}
       {| kv := {[ "rl:alice:0" := ("41", 661000) ]}; trace := [] |}
  = (Ok (error_json 500 "server_error:SyntaxError: Unexpected end of JSON input"),
     {| kv := <[ "rl:alice:0" := ("42", 661000) ]> {[ "rl:alice:0" := ("41", 661000) ]};
        trace := [] |}).
Proof.
  refine (proj1 (proj2 (rate_limit_precedes_body net_groq_down both_keys 1000
            {| client_id := Some "alice";
               req_json := ParseError "SyntaxError: Unexpected end of JSON input" |}
            {| kv := {[ "rl:alice:0" := ("41", 661000) ]}; trace := [] |}
            41 eq_refl eq_refl)) _ eq_refl _).
  lia.
Defined.

(** C8.  The preset is [quality] exactly when the body's [preset] is the
    string ['quality']; any other value -- absent, [null], another case,
    another type -- is taken as [speed], and the handler answers exactly
    as it does to the same body with [preset: 'speed']: nothing is
    rejected on account of the preset. *)
Theorem preset_coerced_to_speed (net : network) (env : Bindings) (now : Z) (cid : option string)
    (body body' : jsval) (w : world)
    (Hnot_quality : get "preset" body <> JStr "quality")
    (Hspeed : get "preset" body' = JStr "speed")
    (Hsame : forall k, k <> "preset" -> get k body' = get k body) :
  preset_of body = speed
  /\ chat net env now (post cid body) w = chat net env now (post cid body') w
  /\ (forall b, preset_of b = quality <-> get "preset" b = JStr "quality").
Proof.
  assert (Hq : forall b, preset_of b = quality <-> get "preset" b = JStr "quality").
  { intros b. unfold preset_of, eq_str. destruct (get "preset" b) as [| | | | |s| |];
      try (split; discriminate).
    destruct (String.eqb_spec s "quality") as [->|Hne]; split; try tauto; try discriminate.
    intros [= H]. contradiction. }
  assert (Hs : preset_of body = speed).
  { destruct (preset_of body) eqn:E; [reflexivity|]. apply Hq in E. contradiction. }
  split; [exact Hs|]. split; [|exact Hq].
  rewrite !chat_run. cbv zeta. rewrite Hs.
  assert (Hs' : preset_of body' = speed) by (unfold preset_of; now rewrite Hspeed).
  rewrite Hs'.
  assert (H1 : get "provider" body' = get "provider" body) by (apply Hsame; discriminate).
  assert (H3 : get "model" body' = get "model" body) by (apply Hsame; discriminate).
  assert (H4 : get "messages" body' = get "messages" body) by (apply Hsame; discriminate).
  assert (H5 : get "temperature" body' = get "temperature" body) by (apply Hsame; discriminate).
  assert (H6 : get "max_tokens" body' = get "max_tokens" body) by (apply Hsame; discriminate).
  unfold call, callGroq, callGemini, openAIToGeminiBody, messages_of, generation_config.
  rewrite H1, H3, H4, H5, H6. reflexivity.
Qed.

Lemma preset_coerced_to_speed_witness :
  chat net_groq_down both_keys 1000
    (post None (JObj [("preset", JStr "Quality"); ("messages", hello)])) empty_world
  = chat net_groq_down both_keys 1000
    (post None (JObj [("preset", JStr "speed"); ("messages", hello)])) empty_world.
Proof.
  refine (proj1 (proj2 (preset_coerced_to_speed net_groq_down both_keys 1000 None
            (JObj [("preset", JStr "Quality"); ("messages", hello)])
            (JObj [("preset", JStr "speed"); ("messages", hello)])
            empty_world _ eq_refl _))).
  - discriminate.
  - intros k Hk. apply String.eqb_neq in Hk. cbn [get assoc]. now rewrite Hk.
Defined.

(** ** The retry protocol of a provider client *)

Lemma chat_requests_app a b : chat_requests (a ++ b) = chat_requests a ++ chat_requests b.
Proof. apply List.filter_app. Qed.

Lemma chat_requests_listing p env : chat_requests [listing p env] = [].
Proof. now destruct p. Qed.

Lemma chat_requests_attempt p env body m :
  chat_requests [attempt p env body m] = [attempt p env body m].
Proof. now destruct p. Qed.

Lemma resolve_world net p env requested preset w r w1 :
  resolve net p env requested preset w = (r, w1) -> w1 = logged w (listing p env).
Proof. rewrite resolve_run. now intros [= _ <-]. Qed.

Lemma isDecommissionedHttp_iff st body :
  isDecommissionedHttp st body = true <->
  st = 404 \/ (st = 400 /\ decommission_pattern body = true).
Proof.
  unfold isDecommissionedHttp.
  destruct (Z.eqb_spec st 404) as [->|H404]; [split; auto|].
  destruct (Z.eqb_spec st 400) as [->|H400]; cbn [andb].
  - destruct (decommission_pattern body); split; auto; intros [H | [_ H]]; congruence.
  - split; [discriminate | intros [H | [H _]]; congruence].
Qed.

(** C2 (at the input where the code departs from it).  Provider A's
    first attempt is answered 400 with a body saying that the model has
    been decommissioned, which is classified as decommissioned (a 400
    with another body is not); the listing request of the second
    resolution is then rejected.  The call fails with that rejection
    after its one chat request: no retry is made, although the chat
    endpoint would have answered one, and the caller gets a 502. *)
Theorem rejected_relisting_prevents_retry :
  let body := JObj [("provider", JStr "groq"); ("messages", hello)] in
  let first := attempt Groq groq_only body "llama-3.1-8b-instant" in
  net_relisting_unreachable [listing Groq groq_only] first = http_fail 400 decommission_notice
  /\ isDecommissionedHttp 400 decommission_notice = true
  /\ isDecommissionedHttp 400 "Bad request: messages is empty" = false
  /\ call net_relisting_unreachable Groq groq_only body speed empty_world
     = (Throw "TypeError: fetch failed",
        {| kv := ∅;
           trace := [listing Groq groq_only; first; listing Groq groq_only] |})
  /\ (forall m,
        net_relisting_unreachable
          [listing Groq groq_only; first; listing Groq groq_only]
          (attempt Groq groq_only body m)
        = json_ok (groq_answer (JStr "hi from A")))
  /\ fst (chat net_relisting_unreachable groq_only 1000 plain_groq_request empty_world)
     = Ok (error_json 502 "groq_failed:TypeError: fetch failed")
  /\ chat_requests
       (trace (snd (chat net_relisting_unreachable groq_only 1000 plain_groq_request
                      empty_world)))
     = [first].
Proof. repeat split; vm_compute; reflexivity. Qed.

(** ** Empty answers *)

(** Provider A: an answer text that is missing, not a string, or the
    empty string is an empty response. *)
Lemma outcome_groq_empty res json :
  res_json res = Parsed json ->
  (forall s, groq_text json = JStr s -> s = "") ->
  outcome Groq res = Throw "Error: groq_empty".
Proof.
  intros Hj Hs. unfold outcome. rewrite Hj.
  destruct (groq_text json) as [| |b|z|r|s|l|f]; try reflexivity;
    try (destruct (truthy _); reflexivity).
  rewrite (Hs s eq_refl). reflexivity.
Qed.

(** Provider A returns any other string as it is, blank or not. *)
Lemma outcome_groq_text res json s :
  res_json res = Parsed json -> groq_text json = JStr s -> s <> "" ->
  outcome Groq res = Ok (toOpenAIResponse (JStr s)).
Proof.
  intros Hj Hs Hne. unfold outcome. rewrite Hj, Hs. cbn [truthy is_string].
  apply String.eqb_neq in Hne. now rewrite Hne.
Qed.

(** Provider B: a text that is blank after trimming is an empty
    response. *)
Lemma outcome_gemini_blank res json :
  res_json res = Parsed json -> gemini_text json = Some "" ->
  outcome Gemini res = Throw "Error: gemini_empty".
Proof. intros Hj Ht. unfold outcome. now rewrite Hj, Ht. Qed.

(** The text read from provider B's answer: the truthy part texts,
    converted, joined by newlines and trimmed, when all of them can be
    converted. *)
Lemma gemini_text_spec json :
  let parts := get "parts" (get "content" (get0 (get "candidates" json))) in
  let texts := List.filter truthy
                 (map (fun p => nullish (get "text" p) (JStr "")) (items_of parts)) in
  gemini_text json =
    if negb (isArray parts) then Some ""
    else if forallb converts texts then Some (trim (join nl (map String_ texts)))
    else None.
Proof.
  intros parts texts. unfold gemini_text. fold parts texts.
  destruct (isArray parts); [|reflexivity]. rewrite to_strings_spec.
  destruct (forallb converts texts); reflexivity.
Qed.

Lemma gemini_text_blank json :
  let parts := get "parts" (get "content" (get0 (get "candidates" json))) in
  let texts := List.filter truthy
                 (map (fun p => nullish (get "text" p) (JStr "")) (items_of parts)) in
  isArray parts = false \/
  (forallb converts texts = true /\ all_ws (join nl (map String_ texts)) = true) ->
  gemini_text json = Some "".
Proof.
  intros parts texts H. rewrite gemini_text_spec. fold parts texts.
  destruct (isArray parts); [|reflexivity].
  destruct H as [H | [Hc H]]; [discriminate|]. cbn [negb]. rewrite Hc.
  now rewrite trim_all_ws.
Qed.

(** C6 (at the input where the code departs from it).  Provider A
    answers with the white-space-only text ["   "]: the client returns it
    as a success and the caller gets a 200 carrying it.  The same text
    from provider B is an empty response. *)
Theorem blank_groq_answer_is_returned :
  all_ws "   " = true
  /\ trim "   " = ""
  /\ fst (chat net_blank_answer both_keys 1000 plain_groq_request empty_world)
     = Ok (success_json (toOpenAIResponse (JStr "   ")))
  /\ fst (chat net_blank_answer both_keys 1000 plain_gemini_request empty_world)
     = Ok (error_json 502 "gemini_failed:Error: gemini_empty").
Proof. repeat split; vm_compute; reflexivity. Qed.

(** ** Resolution when the listing cannot be fetched *)

Lemma resolve_rejected net p env requested preset w e :
  net (trace w) (listing p env) = Rejected e ->
  resolve net p env requested preset w = (Throw e, logged w (listing p env)).
Proof. intros H. now rewrite resolve_run, H. Qed.

(** Whenever the listing call is answered, resolution returns a model
    id, chosen in the order: the requested model if it is in the
    catalog, the first priority entry in the catalog, the first catalog
    entry, the default. *)
Lemma resolve_responded net p env requested preset w r :
  net (trace w) (listing p env) = Responded r ->
  exists m,
    resolve net p env requested preset w = (Ok m, logged w (listing p env)) /\
    m = choose (priority p preset) (default_model p) requested (catalog p r) /\
    (forall s, requested = JStr s -> s <> "" -> In s (catalog p r) -> m = s) /\
    (truthy requested && includes (catalog p r) requested = false ->
       (forall q, pickFirstAvailable (priority p preset) (catalog p r) = Some q -> m = q) /\
       (pickFirstAvailable (priority p preset) (catalog p r) = None ->
          (forall a rest, catalog p r = a :: rest -> a <> "" -> m = a) /\
          (catalog p r = [] -> m = default_model p))).
Proof.
  intros H. eexists. split; [now rewrite resolve_run, H|]. split; [reflexivity|]. split.
  - intros s -> Hs Hin. now apply choose_requested.
  - intros Hr. split.
    + intros q Hq. now apply choose_priority.
    + intros Hn. split.
      * intros a rest Hc Ha. now apply (choose_first _ _ _ _ a rest).
      * intros ->. apply choose_empty.
Qed.

(** C3 (at the input where the code departs from it).  When the listing
    request is rejected -- the catalog endpoint cannot be reached --
    resolution throws for either provider, with or without a requested
    model, instead of returning the default id, and a chat request to
    provider A fails with a 502 although its chat endpoint would have
    answered. *)
Theorem unreachable_catalog_fails_resolution :
  (forall p requested preset,
     fst (resolve net_catalog_unreachable p both_keys requested preset empty_world)
       = Throw "TypeError: fetch failed")
  /\ fst (chat net_catalog_unreachable both_keys 1000 plain_groq_request empty_world)
     = Ok (error_json 502 "groq_failed:TypeError: fetch failed")
  /\ chat_requests
       (trace (snd (chat net_catalog_unreachable both_keys 1000 plain_groq_request empty_world)))
     = [].
Proof.
  split; [|split; vm_compute; reflexivity].
  intros p requested preset. rewrite resolve_run. now destruct p.
Qed.

(** ** Fallback to provider B *)

Lemma rateLimit_world id now w b w0 :
  rateLimit id now w = (b, w0) -> trace w0 = trace w.
Proof. rewrite rateLimit_run. now intros [= _ <-]. Qed.

Lemma contacted_gemini_app a b :
  contacted_gemini (a ++ b) = contacted_gemini a || contacted_gemini b.
Proof. apply existsb_app. Qed.

(** C1, as the code has it.  For a request in [auto] mode that is
    admitted and whose provider-A call fails: provider B is contacted if
    and only if its key is configured.  Without the key the caller gets
    provider A's failure with status 502 and nothing more is sent; with
    the key the caller gets provider B's answer (200) or
    [fallback_failed] (500).  The body's [enable_fallback] is not read:
    a body that differs only there gets the same run. *)
Theorem auto_fallback_follows_credential (net : network) (env : Bindings) (now : Z)
    (cid : option string) (body : jsval) (w w0 w1 : world) (e1 : string)
    (Hauto : nullish (get "provider" body) (JStr "auto") = JStr "auto")
    (Hadmit : rateLimit (header_id cid) now w = (Ok true, w0))
    (HfailA : call net Groq env body (preset_of body) w0 = (Throw e1, w1)) :
  exists extraA extraB,
    trace w1 = trace w ++ extraA
    /\ trace (snd (chat net env now (post cid body) w)) = trace w1 ++ extraB
    /\ contacted_gemini extraA = false
    /\ contacted_gemini extraB = configured (GEMINI_API_KEY env)
    /\ (configured (GEMINI_API_KEY env) = false ->
          chat net env now (post cid body) w
            = (Ok (error_json 502 ("groq_failed_no_fallback:" +:+ e1)), w1))
    /\ (configured (GEMINI_API_KEY env) = true ->
          chat net env now (post cid body) w
            = answer (call net Gemini env body (preset_of body) w1) 500 "fallback_failed:")
    /\ (forall body',
          (forall k, k <> "enable_fallback" -> get k body' = get k body) ->
          chat net env now (post cid body') w = chat net env now (post cid body) w).
Proof.
  destruct (call_trace net Groq env body (preset_of body) w0)
    as (extraA & HtA & _ & _ & _ & HgA).
  rewrite HfailA in HtA. cbn [snd] in HtA. rewrite (rateLimit_world _ _ _ _ _ Hadmit) in HtA.
  destruct (call_trace net Gemini env body (preset_of body) w1)
    as (extraB & HtB & _ & HnoB & _ & HgB).
  assert (Hrun : chat net env now (post cid body) w =
                 if configured (GEMINI_API_KEY env)
                 then answer (call net Gemini env body (preset_of body) w1) 500 "fallback_failed:"
                 else (Ok (error_json 502 ("groq_failed_no_fallback:" +:+ e1)), w1)).
  { rewrite chat_run. cbv zeta. rewrite Hadmit, Hauto. cbn [eq_str String.eqb Ascii.eqb Bool.eqb].
    now rewrite HfailA. }
  exists extraA, (if configured (GEMINI_API_KEY env) then extraB else []).
  split; [exact HtA|]. split; [|split; [exact HgA|split; [|split; [|split]]]].
  - rewrite Hrun. destruct (configured (GEMINI_API_KEY env)).
    + now rewrite answer_trace.
    + cbn [snd]. now rewrite app_nil_r.
  - cbn [secret] in HgB. destruct (configured (GEMINI_API_KEY env)); [exact HgB | reflexivity].
  - intros Hk. now rewrite Hrun, Hk.
  - intros Hk. now rewrite Hrun, Hk.
  - intros body' Hsame. apply chat_ext. intros k Hk. apply Hsame.
    cbn in Hk. intuition (subst; discriminate).
Qed.

Lemma auto_fallback_follows_credential_witness :
  chat net_groq_down both_keys 1000 no_fallback_request empty_world
  = answer (call net_groq_down Gemini both_keys
              (JObj [("provider", JStr "auto"); ("enable_fallback", JBool false);
                     ("messages", hello)])
              speed
              (snd (call net_groq_down Groq both_keys
                      (JObj [("provider", JStr "auto"); ("enable_fallback", JBool false);
                             ("messages", hello)])
                      speed (snd (rateLimit "alice" 1000 empty_world)))))
      500 "fallback_failed:".
Proof.
  destruct (auto_fallback_follows_credential net_groq_down both_keys 1000 (Some "alice")
              (JObj [("provider", JStr "auto"); ("enable_fallback", JBool false);
                     ("messages", hello)])
              empty_world _ _ _ eq_refl eq_refl eq_refl)
    as (extraA & extraB & _ & _ & _ & _ & _ & H & _).
  exact (H eq_refl).
Defined.

(** C1 as stated fails: with [enable_fallback: false] in the body and
    both keys configured, provider A's failure is followed by a call to
    provider B, whose answer is returned with status 200. *)
Lemma fallback_flag_is_not_consulted :
  get "enable_fallback" (JObj [("provider", JStr "auto"); ("enable_fallback", JBool false);
                               ("messages", hello)]) = JBool false
  /\ fst (call net_groq_down Groq both_keys
            (JObj [("provider", JStr "auto"); ("enable_fallback", JBool false);
                   ("messages", hello)])
            speed (snd (rateLimit "alice" 1000 empty_world)))
     = Throw "Error: groq_http_500:internal error"
  /\ contacted_gemini
       (trace (snd (chat net_groq_down both_keys 1000 no_fallback_request empty_world))) = true
  /\ fst (chat net_groq_down both_keys 1000 no_fallback_request empty_world)
     = Ok (success_json (toOpenAIResponse (JStr "hi from B"))).
Proof. repeat split; vm_compute; reflexivity. Qed.

(** ** The 404 scenario under explicit selection of provider A *)

(** C7, as the code has it.  Provider A is selected explicitly, the
    request is admitted, and the first attempt is answered 404; the
    second listing call is answered.  Then exactly one retry is made,
    with the model chosen from the fresh catalog with the requested
    model cleared; that model is the default or a catalog entry, so it
    differs from the explicit id whenever the explicit id is neither;
    and if the retry succeeds the caller gets its answer with status
    200. *)
Theorem explicit_groq_404_retried_once (net : network) (env : Bindings) (now : Z)
    (cid : option string) (body : jsval) (w w0 w1 : world) (m : string)
    (res cat2 : response)
    (Hprovider : get "provider" body = JStr "groq")
    (Hkey : configured (GROQ_API_KEY env) = true)
    (Hadmit : rateLimit (header_id cid) now w = (Ok true, w0))
    (Hresolved : resolve net Groq env (get "model" body) (preset_of body) w0 = (Ok m, w1))
    (Hfirst : net (trace w1) (attempt Groq env body m) = Responded res)
    (H404 : status res = 404)
    (Hlisted : net (trace (logged w1 (attempt Groq env body m))) (listing Groq env)
               = Responded cat2) :
  let first := attempt Groq env body m in
  let w3 := logged (logged w1 first) (listing Groq env) in
  let m' := choose (groq_priority (preset_of body)) GROQ_DEFAULT JUndefined (groq_catalog cat2) in
  let retry := attempt Groq env body m' in
  snd (chat net env now (post cid body) w) = logged w3 retry
  /\ chat_requests (trace (logged w3 retry)) = chat_requests (trace w) ++ [first; retry]
  /\ (m' = GROQ_DEFAULT \/ In m' (groq_catalog cat2))
  /\ (forall x, get "model" body = JStr x ->
        ~ In x (groq_catalog cat2) -> x <> GROQ_DEFAULT -> m' <> x)
  /\ (forall res2 out,
        net (trace w3) retry = Responded res2 -> ok res2 = true ->
        outcome Groq res2 = Ok out ->
        fst (chat net env now (post cid body) w) = Ok (success_json out)).
Proof.
  intros first w3 m' retry.
  assert (Hok : ok res = false) by (unfold ok; rewrite H404; reflexivity).
  assert (Hd : isDecommissionedHttp (status res) (text_or_empty res) = true)
    by (unfold isDecommissionedHttp; rewrite H404; reflexivity).
  assert (Hcall : call net Groq env body (preset_of body) w0 =
                  (match net (trace w3) retry with
                   | Rejected e => Throw e
                   | Responded res2 =>
                       if ok res2 then outcome Groq res2
                       else Throw ("Error: " +:+ http_error "groq" res2)
                   end, logged w3 retry)).
  { rewrite (call_run net Groq env body (preset_of body) w0 Hkey), Hresolved. cbv zeta.
    rewrite Hfirst, Hok, Hd, resolve_run, Hlisted.
    cbn [catalog priority default_model tag]. fold first m' retry w3.
    destruct (net (trace w3) retry) as [e|res2]; [reflexivity|].
    destruct (ok res2); reflexivity. }
  assert (Hrun : chat net env now (post cid body) w =
                 answer (call net Groq env body (preset_of body) w0) 502 "groq_failed:").
  { rewrite chat_run. cbv zeta. rewrite Hadmit, Hprovider. reflexivity. }
  pose proof (choose_cleared (groq_priority (preset_of body)) GROQ_DEFAULT (groq_catalog cat2))
    as Hm'. fold m' in Hm'.
  split; [|split; [|split; [exact Hm'|split]]].
  - rewrite Hrun, Hcall. unfold answer.
    destruct (net (trace w3) retry) as [e|res2]; [reflexivity|].
    destruct (ok res2); [destruct (outcome Groq res2)|]; reflexivity.
  - pose proof (resolve_world _ _ _ _ _ _ _ _ Hresolved) as Hw1.
    subst w3 w1. cbn [logged trace]. rewrite (rateLimit_world _ _ _ _ _ Hadmit).
    rewrite !chat_requests_app.
    change [GroqModels (key_of (GROQ_API_KEY env))] with [listing Groq env].
    rewrite !chat_requests_listing. unfold first, retry.
    now rewrite !chat_requests_attempt, !app_nil_r, <- app_assoc.
  - intros x Hx Hnin Hne Heq. rewrite Heq in Hm'. destruct Hm' as [H | H]; contradiction.
  - intros res2 out Hr Hok2 Hout. rewrite Hrun, Hcall, Hr, Hok2, Hout. reflexivity.
Qed.

Lemma explicit_groq_404_retried_once_witness :
  fst (chat net_listed_but_404 groq_only 1000 explicit_groq_request empty_world)
  = Ok (success_json (toOpenAIResponse (JStr "hi from A"))).
Proof.
  pose proof (explicit_groq_404_retried_once net_listed_but_404 groq_only 1000 (Some "alice")
                (JObj [("provider", JStr "groq"); ("model", JStr "llama-3.1-8b-instant");
                       ("messages", hello)])
                empty_world _ _ _ _ _ eq_refl eq_refl eq_refl eq_refl eq_refl eq_refl eq_refl)
    as (_ & _ & _ & _ & H).
  exact (H _ _ eq_refl eq_refl eq_refl).
Defined.

(** C7 as stated fails: the explicit model is listed and is the first
    priority entry, its first attempt is answered 404, and the one retry
    names the same model again. *)
Lemma retry_can_reuse_the_explicit_model :
  get "model" (JObj [("provider", JStr "groq"); ("model", JStr "llama-3.1-8b-instant");
                     ("messages", hello)]) = JStr "llama-3.1-8b-instant"
  /\ net_listed_but_404 [GroqModels "gk"]
       (attempt Groq groq_only
          (JObj [("provider", JStr "groq"); ("model", JStr "llama-3.1-8b-instant");
                 ("messages", hello)]) "llama-3.1-8b-instant")
     = http_fail 404 "model not found"
  /\ map model_of
       (chat_requests
          (trace (snd (chat net_listed_but_404 groq_only 1000 explicit_groq_request empty_world))))
     = [Some "llama-3.1-8b-instant"; Some "llama-3.1-8b-instant"]
  /\ code (match fst (chat net_listed_but_404 groq_only 1000 explicit_groq_request empty_world)
           with Ok r => r | Throw _ => error_json 0 "" end) = 200.
Proof. repeat split; vm_compute; reflexivity. Qed.

(** An empty string is never taken for a model id: requested, it counts
    as no request; first in the catalog, it gives way to the default. *)
Lemma empty_id_counts_as_absent priority fallback rest :
  pickFirstAvailable priority ("" :: rest) = None ->
  choose priority fallback (JStr "") ("" :: rest) = fallback.
Proof. intros H. unfold choose. cbn [truthy String.eqb negb andb]. now rewrite H. Qed.

(** * Further properties of the worker *)

(** ** What a provider call sends *)

Lemma call_requests_shape net p env body preset w :
  exists extra,
    trace (snd (call net p env body preset w)) = trace w ++ extra /\
    from_call p env body extra.
Proof.
  destruct (configured (secret p env)) eqn:Hk.
  - rewrite (call_run net p env body preset w Hk), !resolve_run.
    repeat (cbv beta iota zeta delta [logged];
            match goal with
            | |- context [resolve net ?p ?e ?r ?s ?w] => rewrite (resolve_run net p e r s w)
            | |- context [match net ?t ?r with _ => _ end] => destruct (net t r)
            | |- context [if ?c then _ else _] => destruct c
            end);
      cbn [snd kv trace]; rewrite <- ?app_assoc; cbn [app];
      (eexists; split; [reflexivity|]; eexists _, _; eexists; cbn [app]; reflexivity).
  - rewrite (call_unconfigured net p env body preset w Hk). cbn [snd].
    exists []. rewrite app_nil_r. split; [reflexivity|]. exists "", "". now eexists.
Unshelve. all: exact "".
Qed.

Lemma from_call_cases p env body extra :
  from_call p env body extra ->
  exists m m',
    extra = [] \/ extra = [listing p env] \/
    extra = [listing p env; attempt p env body m] \/
    extra = [listing p env; attempt p env body m; listing p env] \/
    extra = [listing p env; attempt p env body m; listing p env; attempt p env body m'].
Proof.
  intros (m & m' & k & Hk). exists m, m'.
  destruct extra as [|a [|b [|c [|d [|e rest]]]]]; cbn [app] in Hk.
  - auto.
  - injection Hk as <- _. auto.
  - injection Hk as <- <- _. auto.
  - injection Hk as <- <- <- _. auto.
  - injection Hk as <- <- <- <- _. auto 6.
  - injection Hk as _ _ _ _ Hk. discriminate Hk.
Qed.

Lemma from_call_nil p env body : from_call p env body [].
Proof. exists "", "". now eexists. Qed.

Lemma sent_to_listing p env : sent_to (listing p env) = p /\ key_sent (listing p env) = key_of (secret p env).
Proof. now destruct p. Qed.

Lemma sent_to_attempt p env body m :
  sent_to (attempt p env body m) = p /\ key_sent (attempt p env body m) = key_of (secret p env).
Proof. now destruct p. Qed.

Lemma from_call_bounds p env body extra :
  from_call p env body extra ->
  (length extra <= 4)%nat /\ (length (chat_requests extra) <= 2)%nat /\
  Forall (fun rq => sent_to rq = p /\ key_sent rq = key_of (secret p env)) extra.
Proof.
  intros H. destruct (from_call_cases _ _ _ _ H) as (m & m' & [-> | [-> | [-> | [-> | ->]]]]);
    (split; [cbn; lia|]);
    (split; [destruct p; cbn; lia|]);
    repeat constructor; try apply sent_to_listing; try apply sent_to_attempt.
Qed.

(** X4.  One call to a provider client sends, in this order and stopping
    anywhere: the model listing, one chat attempt, the listing again, one
    more chat attempt -- so at most four requests, at most two of them
    chat attempts, all to that provider -- and it leaves the store
    untouched. *)
Theorem provider_call_requests (net : network) (p : provider) (env : Bindings) (body : jsval)
    (preset : Preset) (w : world) :
  exists extra,
    trace (snd (call net p env body preset w)) = trace w ++ extra
    /\ kv (snd (call net p env body preset w)) = kv w
    /\ from_call p env body extra
    /\ (length extra <= 4)%nat
    /\ (length (chat_requests extra) <= 2)%nat.
Proof.
  destruct (call_requests_shape net p env body preset w) as (extra & Ht & Hs).
  destruct (call_trace net p env body preset w) as (extra' & _ & Hkv & _).
  destruct (from_call_bounds _ _ _ _ Hs) as (Hl & Hc & _).
  exists extra. auto.
Qed.

(** The requests of one run of the handler: those of the call to
    provider A, then those of the call to provider B. *)
Lemma chat_trace net env now rq w :
  exists extraA extraB,
    trace (snd (chat net env now rq w)) = trace w ++ extraA ++ extraB /\
    (forall body, req_json rq = Parsed body ->
       from_call Groq env body extraA /\ from_call Gemini env body extraB) /\
    (forall e, req_json rq = ParseError e -> extraA = [] /\ extraB = []).
Proof.
  destruct rq as [cid [e|body]].
  - exists [], []. rewrite chat_unparsed. rewrite rateLimit_run. rewrite app_nil_r.
    split; [now destruct (num_le _ 60)|]. split; [discriminate | auto].
  - change {| client_id := cid; req_json := Parsed body |} with (post cid body).
    rewrite chat_run. cbv zeta. rewrite rateLimit_run. cbn [req_json post].
    set (w0 := {| kv := _; trace := trace w |}).
    assert (Hfin : forall a b,
              from_call Groq env body a -> from_call Gemini env body b ->
              (forall body0, Parsed body = Parsed body0 ->
                 from_call Groq env body0 a /\ from_call Gemini env body0 b) /\
              (forall e, Parsed body = ParseError e -> a = [] /\ b = []))
      by (intros a b Ha Hb; split; [now intros ? [= <-] | discriminate]).
    destruct (num_le _ 60).
    + destruct (eq_str _ "groq").
      { destruct (call_requests_shape net Groq env body (preset_of body) w0) as (a & Ha & Hsa).
        exists a, []. rewrite answer_trace, Ha, app_nil_r. split; [reflexivity|].
        apply Hfin; [exact Hsa | apply from_call_nil]. }
      destruct (eq_str _ "gemini").
      { destruct (call_requests_shape net Gemini env body (preset_of body) w0) as (b & Hb & Hsb).
        exists [], b. rewrite answer_trace, Hb. split; [reflexivity|].
        apply Hfin; [apply from_call_nil | exact Hsb]. }
      destruct (call_requests_shape net Groq env body (preset_of body) w0) as (a & Ha & Hsa).
      destruct (call net Groq env body (preset_of body) w0) as [[out|e1] w1]; cbn [snd] in Ha.
      { exists a, []. cbn [snd]. rewrite Ha, app_nil_r. split; [reflexivity|].
        apply Hfin; [exact Hsa | apply from_call_nil]. }
      destruct (configured (GEMINI_API_KEY env)).
      { destruct (call_requests_shape net Gemini env body (preset_of body) w1) as (b & Hb & Hsb).
        exists a, b. rewrite answer_trace, Hb, Ha, <- app_assoc. split; [reflexivity|].
        apply Hfin; assumption. }
      exists a, []. cbn [snd]. rewrite Ha, app_nil_r. split; [reflexivity|].
      apply Hfin; [exact Hsa | apply from_call_nil].
    + exists [], []. cbn [snd]. rewrite app_nil_r. split; [reflexivity|].
      apply Hfin; apply from_call_nil.
Qed.

Lemma outcome_Ok p res out :
  outcome p res = Ok out -> exists s, out = toOpenAIResponse (JStr s) /\ s <> "".
Proof.
  unfold outcome. destruct (res_json res) as [e|json]; [discriminate|]. destruct p.
  - destruct (groq_text json) as [| |b|z|r|s|l|f]; cbn [truthy is_string negb orb];
      try discriminate; try (destruct (negb _); discriminate).
    destruct (String.eqb_spec s "") as [->|Hne]; cbn [negb orb]; [discriminate|].
    intros [= <-]. eauto.
  - destruct (gemini_text json) as [txt|]; [|discriminate]. unfold str_truthy.
    destruct (String.eqb_spec txt "") as [E|Hne]; cbn [negb]; [discriminate|].
    intros [= <-]. eauto.
Qed.

(** A provider call that returns has read its answer from a 2xx response
    to one of its own chat attempts. *)
Lemma call_Ok net p env body preset w out w' :
  call net p env body preset w = (Ok out, w') ->
  exists tr m res,
    net tr (attempt p env body m) = Responded res /\ ok res = true /\ outcome p res = Ok out.
Proof.
  destruct (configured (secret p env)) eqn:Hk.
  - rewrite (call_run net p env body preset w Hk), !resolve_run.
    repeat (cbv beta iota zeta delta [logged];
            match goal with
            | |- context [resolve net ?p ?e ?r ?s ?w] => rewrite (resolve_run net p e r s w)
            | |- context [match net ?t ?r with _ => _ end] => destruct (net t r) eqn:?
            | |- context [if ok ?r then _ else _] => destruct (ok r) eqn:?
            | |- context [if ?c then _ else _] => destruct c eqn:?
            end);
      try discriminate; intros [= Hout _]; eauto 8.
  - rewrite (call_unconfigured net p env body preset w Hk). discriminate.
Qed.

(** X1.  The handler never lets an exception out: for every request,
    network and store it returns a response whose status is 200, 429, 500
    or 502; a 200 carries the envelope with a non-empty text, every other
    status an object with an [error] string. *)
Theorem chat_always_answers (net : network) (env : Bindings) (now : Z) (rq : http_request)
    (w : world) :
  exists resp,
    fst (chat net env now rq w) = Ok resp
    /\ (code resp = 200 \/ code resp = 429 \/ code resp = 500 \/ code resp = 502)
    /\ (code resp = 200 -> exists s, payload resp = toOpenAIResponse (JStr s) /\ s <> "")
    /\ (code resp <> 200 -> exists msg, payload resp = JObj [("error", JStr msg)]).
Proof.
  assert (Herr : forall c msg (w' : world),
            (c = 200 \/ c = 429 \/ c = 500 \/ c = 502) -> c <> 200 ->
            exists resp,
              fst (Ok (error_json c msg), w') = Ok resp
              /\ (code resp = 200 \/ code resp = 429 \/ code resp = 500 \/ code resp = 502)
              /\ (code resp = 200 -> exists s, payload resp = toOpenAIResponse (JStr s) /\ s <> "")
              /\ (code resp <> 200 -> exists m, payload resp = JObj [("error", JStr m)])).
  { intros c msg w' Hc Hn. eexists. split; [reflexivity|]. cbn [error_json code payload].
    split; [exact Hc|]. split; [contradiction | eauto]. }
  assert (Hans : forall p body preset (w0 : world) c pre,
            (c = 500 \/ c = 502) ->
            exists resp,
              fst (answer (call net p env body preset w0) c pre) = Ok resp
              /\ (code resp = 200 \/ code resp = 429 \/ code resp = 500 \/ code resp = 502)
              /\ (code resp = 200 -> exists s, payload resp = toOpenAIResponse (JStr s) /\ s <> "")
              /\ (code resp <> 200 -> exists m, payload resp = JObj [("error", JStr m)])).
  { intros p body preset w0 c pre Hc.
    destruct (call net p env body preset w0) as [[out|e] w1] eqn:E; cbn [answer].
    - destruct (call_Ok _ _ _ _ _ _ _ _ E) as (tr & m & res & _ & _ & Ho).
      apply outcome_Ok in Ho. eexists. split; [reflexivity|]. cbn [success_json code payload].
      split; [auto|]. split; [auto | congruence].
    - apply Herr; lia. }
  destruct rq as [cid [e|body]].
  - rewrite chat_unparsed. destruct (rateLimit _ now w) as [[[|]|e'] w0]; apply Herr; lia.
  - change {| client_id := cid; req_json := Parsed body |} with (post cid body).
    rewrite chat_run. cbv zeta.
    destruct (rateLimit _ now w) as [[[|]|e'] w0]; try (apply Herr; lia).
    destruct (eq_str _ "groq"); [apply Hans; auto|].
    destruct (eq_str _ "gemini"); [apply Hans; auto|].
    destruct (call net Groq env body (preset_of body) w0) as [[out|e1] w1] eqn:E.
    + destruct (call_Ok _ _ _ _ _ _ _ _ E) as (tr & m & res & _ & _ & Ho).
      apply outcome_Ok in Ho. eexists. split; [reflexivity|]. cbn [success_json code payload].
      split; [auto|]. split; [auto | congruence].
    + destruct (configured (GEMINI_API_KEY env)); [apply Hans; auto | apply Herr; lia].
Qed.

(** X2.  One inbound request causes at most eight outbound requests, of
    which at most four are chat attempts. *)
Theorem chat_outbound_bound (net : network) (env : Bindings) (now : Z) (rq : http_request)
    (w : world) :
  exists extra,
    trace (snd (chat net env now rq w)) = trace w ++ extra
    /\ (length extra <= 8)%nat
    /\ (length (chat_requests extra) <= 4)%nat.
Proof.
  destruct (chat_trace net env now rq w) as (a & b & Ht & Hp & Hu).
  exists (a ++ b). split; [exact Ht|].
  destruct (req_json rq) as [e|body] eqn:E.
  - destruct (Hu e eq_refl) as [-> ->]. cbn. lia.
  - destruct (Hp body eq_refl) as [Ha Hb].
    destruct (from_call_bounds _ _ _ _ Ha) as (La & Ca & _).
    destruct (from_call_bounds _ _ _ _ Hb) as (Lb & Cb & _).
    rewrite chat_requests_app, !length_app. lia.
Qed.

(** X3.  The requests of one run are those to provider A followed by
    those to provider B; each request to provider A carries
    [GROQ_API_KEY] and each request to provider B [GEMINI_API_KEY], so a
    key never reaches the other provider, and provider B is never
    contacted before provider A. *)
Theorem keys_stay_with_their_provider (net : network) (env : Bindings) (now : Z)
    (rq : http_request) (w : world) :
  exists toA toB,
    trace (snd (chat net env now rq w)) = trace w ++ toA ++ toB
    /\ Forall (fun r => sent_to r = Groq /\ key_sent r = key_of (GROQ_API_KEY env)) toA
    /\ Forall (fun r => sent_to r = Gemini /\ key_sent r = key_of (GEMINI_API_KEY env)) toB.
Proof.
  destruct (chat_trace net env now rq w) as (a & b & Ht & Hp & Hu).
  exists a, b. split; [exact Ht|].
  destruct (req_json rq) as [e|body] eqn:E.
  - destruct (Hu e eq_refl) as [-> ->]. split; constructor.
  - destruct (Hp body eq_refl) as [Ha Hb].
    destruct (from_call_bounds _ _ _ _ Ha) as (_ & _ & Fa).
    destruct (from_call_bounds _ _ _ _ Hb) as (_ & _ & Fb). split; assumption.
Qed.

(** ** Selection, missing keys and the success paths *)

(** X6.  For an admitted request, a provider selected explicitly whose
    key is not configured gives 502 [<provider>_failed: ..._key_missing]
    with no outbound request.  In [auto] mode without provider A's key,
    provider B is called at once when its key is configured, and
    otherwise the answer is 502 [groq_failed_no_fallback]. *)
Theorem missing_key_short_circuits (net : network) (env : Bindings) (now : Z)
    (cid : option string) (body : jsval) (w w0 : world)
    (Hadmit : rateLimit (header_id cid) now w = (Ok true, w0)) :
  trace w0 = trace w
  /\ (forall p, get "provider" body = JStr (tag p) -> configured (secret p env) = false ->
        chat net env now (post cid body) w
          = (Ok (error_json 502 (tag p +:+ "_failed:Error: " +:+ tag p +:+ "_key_missing")), w0))
  /\ (nullish (get "provider" body) (JStr "auto") = JStr "auto" ->
      configured (GROQ_API_KEY env) = false ->
        chat net env now (post cid body) w
          = if configured (GEMINI_API_KEY env)
            then answer (call net Gemini env body (preset_of body) w0) 500 "fallback_failed:"
            else (Ok (error_json 502 "groq_failed_no_fallback:Error: groq_key_missing"), w0)).
Proof.
  split; [exact (rateLimit_world _ _ _ _ _ Hadmit)|]. split.
  - intros p Hp Hk. rewrite chat_run. cbv zeta. rewrite Hadmit, Hp.
    destruct p; cbn [nullish tag eq_str String.eqb Ascii.eqb Bool.eqb];
      now rewrite (call_unconfigured net _ env body (preset_of body) w0 Hk).
  - intros Hauto Hk. rewrite chat_run. cbv zeta. rewrite Hadmit, Hauto.
    cbn [eq_str String.eqb Ascii.eqb Bool.eqb].
    now rewrite (call_unconfigured net Groq env body (preset_of body) w0 Hk).
Qed.

Lemma missing_key_short_circuits_witness :
  chat net_all_up gemini_only 1000 plain_groq_request empty_world
  = (Ok (error_json 502 "groq_failed:Error: groq_key_missing"),
     snd (rateLimit "anon" 1000 empty_world)).
Proof.
  exact (proj1 (proj2 (missing_key_short_circuits net_all_up gemini_only 1000 None
                         (JObj [("provider", JStr "groq"); ("messages", hello)])
                         empty_world _ eq_refl)) Groq eq_refl eq_refl).
Defined.

(** X7.  When the body names a provider, only that provider is
    contacted: its failure is answered with 502 [<provider>_failed:...]
    and the other provider is not tried. *)
Theorem explicit_selection_has_no_fallback (net : network) (p : provider) (env : Bindings)
    (now : Z) (cid : option string) (body : jsval) (w w0 : world)
    (Hprovider : get "provider" body = JStr (tag p))
    (Hadmit : rateLimit (header_id cid) now w = (Ok true, w0)) :
  chat net env now (post cid body) w
    = answer (call net p env body (preset_of body) w0) 502 (tag p +:+ "_failed:")
  /\ exists extra,
       trace (snd (chat net env now (post cid body) w)) = trace w ++ extra
       /\ Forall (fun r => sent_to r = p) extra.
Proof.
  assert (Hrun : chat net env now (post cid body) w
                 = answer (call net p env body (preset_of body) w0) 502 (tag p +:+ "_failed:")).
  { rewrite chat_run. cbv zeta. rewrite Hadmit, Hprovider. now destruct p. }
  split; [exact Hrun|]. rewrite Hrun, answer_trace.
  destruct (call_requests_shape net p env body (preset_of body) w0) as (extra & Ht & Hs).
  exists extra. rewrite Ht, (rateLimit_world _ _ _ _ _ Hadmit). split; [reflexivity|].
  destruct (from_call_bounds _ _ _ _ Hs) as (_ & _ & F).
  eapply List.Forall_impl; [|exact F]. now intros r [H _].
Qed.

Lemma explicit_selection_has_no_fallback_witness :
  chat net_groq_down both_keys 1000 plain_groq_request empty_world
  = answer (call net_groq_down Groq both_keys
              (JObj [("provider", JStr "groq"); ("messages", hello)]) speed
              (snd (rateLimit "anon" 1000 empty_world)))
      502 "groq_failed:".
Proof.
  exact (proj1 (explicit_selection_has_no_fallback net_groq_down Groq both_keys 1000 None
                  (JObj [("provider", JStr "groq"); ("messages", hello)])
                  empty_world _ eq_refl eq_refl)).
Defined.

(** X8.  In [auto] mode, when provider A's call succeeds its answer is
    returned with status 200 and provider B is not contacted. *)
Theorem auto_success_skips_fallback (net : network) (env : Bindings) (now : Z)
    (cid : option string) (body : jsval) (w w0 w1 : world) (out : jsval)
    (Hauto : nullish (get "provider" body) (JStr "auto") = JStr "auto")
    (Hadmit : rateLimit (header_id cid) now w = (Ok true, w0))
    (HokA : call net Groq env body (preset_of body) w0 = (Ok out, w1)) :
  chat net env now (post cid body) w = (Ok (success_json out), w1)
  /\ exists extra, trace w1 = trace w ++ extra /\ contacted_gemini extra = false.
Proof.
  split.
  - rewrite chat_run. cbv zeta. rewrite Hadmit, Hauto.
    cbn [eq_str String.eqb Ascii.eqb Bool.eqb]. now rewrite HokA.
  - destruct (call_trace net Groq env body (preset_of body) w0) as (extra & Ht & _ & _ & _ & Hg).
    rewrite HokA in Ht. cbn [snd] in Ht. exists extra.
    now rewrite Ht, (rateLimit_world _ _ _ _ _ Hadmit).
Qed.

Lemma auto_success_skips_fallback_witness :
  chat net_all_up both_keys 1000 auto_request empty_world
  = (Ok (success_json (toOpenAIResponse (JStr "hi from A"))),
     snd (call net_all_up Groq both_keys (JObj [("messages", hello)]) speed
            (snd (rateLimit "alice" 1000 empty_world)))).
Proof.
  exact (proj1 (auto_success_skips_fallback net_all_up both_keys 1000 (Some "alice")
                  (JObj [("messages", hello)]) empty_world _ _ _ eq_refl eq_refl eq_refl)).
Defined.

(** X5.  Once the model is resolved, provider B's client translates the
    body, and when a content it converts cannot be converted the call
    fails with the [TypeError], the listing being the only request sent;
    provider A's client has nothing to translate.  Otherwise the first
    attempt is sent, and only a decommissioned classification leads to a
    retry: a first attempt that is rejected at network level fails the
    call at once, and one answered with a 2xx status ends the call with
    that response; in both cases the call has sent the listing and that
    one attempt. *)
Theorem no_retry_without_decommission (net : network) (p : provider) (env : Bindings)
    (body : jsval) (preset : Preset) (w w1 : world) (m : string)
    (Hkey : configured (secret p env) = true)
    (Hresolved : resolve net p env (get "model" body) preset w = (Ok m, w1)) :
  let first := attempt p env body m in
  (sendable p body = false ->
     p = Gemini /\ call net p env body preset w = (Throw type_error, w1))
  /\ (sendable p body = true ->
        (forall e, net (trace w1) first = Rejected e ->
           call net p env body preset w = (Throw e, logged w1 first))
        /\ (forall res, net (trace w1) first = Responded res -> ok res = true ->
              call net p env body preset w = (outcome p res, logged w1 first)))
  /\ trace w1 = trace w ++ [listing p env]
  /\ trace (logged w1 first) = trace w ++ [listing p env; first].
Proof.
  intros first. split; [|split; [|split]].
  - intros Hs. split; [destruct p; [discriminate Hs | reflexivity]|].
    rewrite (call_run net p env body preset w Hkey), Hresolved. now rewrite Hs.
  - intros Hs. split.
    + intros e He. rewrite (call_run net p env body preset w Hkey), Hresolved, Hs. cbv zeta.
      fold first. now rewrite He.
    + intros res Hr Hok. rewrite (call_run net p env body preset w Hkey), Hresolved, Hs.
      cbv zeta. fold first. now rewrite Hr, Hok.
  - now rewrite (resolve_world _ _ _ _ _ _ _ _ Hresolved).
  - rewrite (resolve_world _ _ _ _ _ _ _ _ Hresolved). cbn [logged trace].
    now rewrite <- app_assoc.
Qed.

Lemma no_retry_without_decommission_witness :
  call net_groq_chat_unreachable Groq both_keys (JObj [("messages", hello)]) speed empty_world
  = (Throw "TypeError: fetch failed",
     logged (logged empty_world (listing Groq both_keys))
            (attempt Groq both_keys (JObj [("messages", hello)]) "llama-3.1-8b-instant"))
  /\ call net_all_up Gemini both_keys unconvertible_body speed empty_world
     = (Throw "TypeError: Cannot convert object to primitive value",
        logged empty_world (listing Gemini both_keys)).
Proof.
  split.
  - exact (proj1 (proj1 (proj2 (no_retry_without_decommission net_groq_chat_unreachable Groq
                    both_keys (JObj [("messages", hello)]) speed empty_world _ _
                    eq_refl eq_refl)) eq_refl) _ eq_refl).
  - exact (proj2 (proj1 (no_retry_without_decommission net_all_up Gemini both_keys
                    unconvertible_body speed empty_world _ _ eq_refl eq_refl) eq_refl)).
Defined.

(** X26.  For either provider, when the first attempt is sent and is
    answered with a non-success status: it is classified as
    decommissioned exactly when the status is 404, or is 400 with a body
    that contains [model] in any letter case, followed on the same line
    by [decommissioned] or [not found] in any letter case.  Otherwise the
    call fails then and there with the HTTP error, and no further request
    is made.  On a decommissioned classification the model is resolved
    again with the requested model cleared; if that returns a model,
    exactly one more attempt is made, with that model and the same
    payload, and the call ends with it: a rejected or non-success retry
    fails the call, a successful one is read as a first success would be.
    If the second resolution fails, the call fails with its error and no
    retry is made. *)
Theorem decommission_retry_protocol (net : network) (p : provider) (env : Bindings)
    (body : jsval) (preset : Preset) (w w1 : world) (m : string) (res : response)
    (Hkey : configured (secret p env) = true)
    (Hresolved : resolve net p env (get "model" body) preset w = (Ok m, w1))
    (Hsend : sendable p body = true)
    (Hfirst : net (trace w1) (attempt p env body m) = Responded res)
    (Hfail : ok res = false) :
  let first := attempt p env body m in
  let w2 := logged w1 first in
  let decommissioned := isDecommissionedHttp (status res) (text_or_empty res) in
  (decommissioned = true <->
     status res = 404 \/
     (status res = 400 /\
      exists pre mdl gap kw rest,
        text_or_empty res = pre +:+ mdl +:+ gap +:+ kw +:+ rest /\
        lower_string mdl = "model" /\ no_line_terminator gap = true /\
        (lower_string kw = "decommissioned" \/ lower_string kw = "not found")))
  /\ (decommissioned = false ->
        call net p env body preset w = (Throw ("Error: " +:+ http_error (tag p) res), w2)
        /\ chat_requests (trace w2) = chat_requests (trace w) ++ [first])
  /\ (decommissioned = true ->
        (forall m' w3, resolve net p env JUndefined preset w2 = (Ok m', w3) ->
           let retry := attempt p env body m' in
           call net p env body preset w
             = (match net (trace w3) retry with
                | Rejected e => Throw e
                | Responded res2 =>
                    if ok res2 then outcome p res2
                    else Throw ("Error: " +:+ http_error (tag p) res2)
                end, logged w3 retry)
           /\ chat_requests (trace (logged w3 retry))
                = chat_requests (trace w) ++ [first; retry])
        /\ (forall e w3, resolve net p env JUndefined preset w2 = (Throw e, w3) ->
              call net p env body preset w = (Throw e, w3)
              /\ chat_requests (trace w3) = chat_requests (trace w) ++ [first])).
Proof.
  intros first w2 decommissioned.
  pose proof (resolve_world _ _ _ _ _ _ _ _ Hresolved) as Hw1.
  assert (Hc2 : chat_requests (trace w2) = chat_requests (trace w) ++ [first]).
  { subst w2 w1. cbn [logged trace]. rewrite !chat_requests_app, chat_requests_listing.
    unfold first. now rewrite chat_requests_attempt, app_nil_r. }
  split; [unfold decommissioned; rewrite isDecommissionedHttp_iff, decommission_pattern_iff;
          reflexivity|].
  split.
  - intros Hd. split; [|exact Hc2].
    rewrite (call_run net p env body preset w Hkey), Hresolved, Hsend. cbv zeta.
    rewrite Hfirst, Hfail. fold decommissioned. now rewrite Hd.
  - intros Hd. split.
    + intros m' w3 Hres2 retry. split.
      * rewrite (call_run net p env body preset w Hkey), Hresolved, Hsend. cbv zeta.
        rewrite Hfirst, Hfail. fold decommissioned first w2. rewrite Hd, Hres2.
        fold retry. destruct (net (trace w3) retry) as [e|res2]; [reflexivity|].
        destruct (ok res2); reflexivity.
      * pose proof (resolve_world _ _ _ _ _ _ _ _ Hres2) as Hw3. subst w3.
        cbn [logged trace]. rewrite !chat_requests_app. fold (logged w1 first). fold w2.
        rewrite Hc2, chat_requests_listing. unfold retry.
        now rewrite chat_requests_attempt, app_nil_r, <- app_assoc.
    + intros e w3 Hres2. split.
      * rewrite (call_run net p env body preset w Hkey), Hresolved, Hsend. cbv zeta.
        rewrite Hfirst, Hfail. fold decommissioned first w2. now rewrite Hd, Hres2.
      * pose proof (resolve_world _ _ _ _ _ _ _ _ Hres2) as Hw3. subst w3.
        cbn [logged trace]. rewrite chat_requests_app. fold w2.
        now rewrite Hc2, chat_requests_listing, app_nil_r.
Qed.

Lemma decommission_retry_protocol_witness :
  call net_withdrawn_once Gemini gemini_only (JObj [("messages", hello)]) speed empty_world
  = (Ok (toOpenAIResponse (JStr "hi from B")),
     {| kv := ∅;
        trace := [listing Gemini gemini_only;
                  attempt Gemini gemini_only (JObj [("messages", hello)]) "gemini-2.5-flash";
                  listing Gemini gemini_only;
                  attempt Gemini gemini_only (JObj [("messages", hello)]) "gemini-2.5-flash"] |}).
Proof.
  pose proof (decommission_retry_protocol net_withdrawn_once Gemini gemini_only
                (JObj [("messages", hello)]) speed empty_world _ _ _
                eq_refl eq_refl eq_refl eq_refl eq_refl) as H.
  destruct H as (_ & _ & H). destruct (H eq_refl) as [H1 _].
  destruct (H1 _ _ eq_refl) as [Hcall _].
  rewrite Hcall. reflexivity.
Defined.

(** ** More on the translation *)

Lemma flush_step_length st m :
  (length (flush (step st m)) <= length (flush st) + (if kept m then 1 else 0))%nat.
Proof.
  destruct st as [p out]. unfold step, kept.
  destruct (truthy (get "role" m)), (truthy (get "content" m)); cbn [negb orb andb]; try lia.
  destruct (eq_str (get "role" m) "system").
  - unfold flush. destruct p as [|c p]; cbn [str_truthy String.eqb negb].
    + change ("" +:+ "" +:+ String_ (get "content" m)) with (String_ (get "content" m)).
      destruct (str_truthy _); rewrite ?length_app; cbn [length]; lia.
    + rewrite append_cons. cbn [str_truthy String.eqb negb].
      rewrite !length_app. cbn [length]. lia.
  - destruct (str_truthy p && String.eqb _ "user") eqn:E; unfold flush.
    + apply andb_true_iff in E as [-> _]. cbn [str_truthy String.eqb negb].
      rewrite !length_app. cbn [length]. lia.
    + destruct (str_truthy p); rewrite !length_app; cbn [length]; lia.
Qed.

Lemma flush_loop_length ms : forall st,
  (length (flush (loop st ms)) <= length (flush st) + length (List.filter kept ms))%nat.
Proof.
  induction ms as [|m ms IH]; intros st; [cbn; lia|].
  cbn [loop fold_left List.filter]. fold (loop (step st m) ms).
  specialize (IH (step st m)). pose proof (flush_step_length st m).
  destruct (kept m); cbn [length]; lia.
Qed.

(** X9.  The translation to Gemini's shape has at most one turn per
    message it keeps (one with truthy role and content), hence never more
    turns than messages. *)
Theorem translation_no_longer_than_input (msgs : list jsval) :
  (length (translate_messages msgs) <= length (List.filter kept msgs))%nat
  /\ (length (List.filter kept msgs) <= length msgs)%nat.
Proof.
  split; [exact (flush_loop_length msgs ("", []))|]. apply List.filter_length_le.
Qed.

Lemma loop_without_system ms : forall out,
  forallb (fun m => negb (kept m && is_system m)) ms = true ->
  loop ("", out) ms = ("", out ++ map turn_of (List.filter kept ms)).
Proof.
  induction ms as [|m ms IH]; intros out H; [cbn; now rewrite app_nil_r|].
  cbn [forallb] in H. apply andb_true_iff in H as [Hm H].
  cbn [loop fold_left List.filter]. fold (loop (step ("", out) m) ms).
  unfold step, kept, is_system in *.
  destruct (truthy (get "role" m)), (truthy (get "content" m)); cbn [negb orb andb] in *;
    try (now apply IH).
  apply negb_true_iff in Hm. rewrite Hm. cbn [str_truthy String.eqb negb andb map].
  rewrite IH by exact H. unfold turn_of. now rewrite <- app_assoc.
Qed.

(** X10.  When every message the translation keeps has a string for
    its content and a role other than [system], [openAIToGeminiBody]
    returns, and its contents are the kept messages in order, one turn
    each: [assistant] becomes [model], every other role becomes [user],
    and the text is the content. *)
Theorem translation_without_system (body : jsval) (msgs : list jsval)
    (Hmsgs : get "messages" body = JArr msgs)
    (Hplain : forallb (fun m => negb (kept m)
                                || (is_string (get "content" m) && negb (is_system m)))
                msgs = true) :
  (exists b, openAIToGeminiBody body = Some b
             /\ contents b = map turn_of (List.filter kept msgs))
  /\ Forall (fun m => get "content" m = JStr (text (turn_of m))
                      /\ role (turn_of m)
                         = if eq_str (get "role" m) "assistant" then "model" else "user")
       (List.filter kept msgs).
Proof.
  assert (Hm : messages_of body = msgs) by (unfold messages_of; now rewrite Hmsgs).
  split.
  - rewrite openAIToGeminiBody_spec, Hm. rewrite convertible_strings.
    + eexists. split; [reflexivity|]. cbn [gemini_body_of contents]. rewrite Hm.
      unfold translate_messages. rewrite loop_without_system; [reflexivity|].
      rewrite forallb_forall in *. intros m Hin. specialize (Hplain m Hin).
      destruct (kept m); [|reflexivity]. cbn [negb orb andb] in *.
      apply andb_true_iff in Hplain as [_ ->]. reflexivity.
    + rewrite forallb_forall in *. intros m Hin. specialize (Hplain m Hin).
      unfold kept in Hplain.
      destruct (truthy (get "role" m) && truthy (get "content" m)); [|reflexivity].
      cbn [negb orb] in *. now apply andb_true_iff in Hplain as [-> _].
  - apply List.Forall_forall. intros m Hin. apply filter_In in Hin as [Hin Hk].
    rewrite forallb_forall in Hplain. specialize (Hplain m Hin). rewrite Hk in Hplain.
    cbn [negb orb] in Hplain. apply andb_true_iff in Hplain as [Hs _].
    split; [|reflexivity]. unfold turn_of. cbn [text].
    destruct (get "content" m); try discriminate Hs. reflexivity.
Qed.

Lemma translation_without_system_witness :
  exists b,
    openAIToGeminiBody
      (JObj [("messages",
              JArr [msg "user" "hi"; msg "assistant" "hello"; msg "tool" "x";
                    JObj [("role", JStr "user")]; msg "user" "bye"])]) = Some b
    /\ contents b
       = map turn_of
           (List.filter kept [msg "user" "hi"; msg "assistant" "hello"; msg "tool" "x";
                              JObj [("role", JStr "user")]; msg "user" "bye"]).
Proof.
  exact (proj1 (translation_without_system
                  (JObj [("messages",
                          JArr [msg "user" "hi"; msg "assistant" "hello"; msg "tool" "x";
                                JObj [("role", JStr "user")]; msg "user" "bye"])])
                  [msg "user" "hi"; msg "assistant" "hello"; msg "tool" "x";
                   JObj [("role", JStr "user")]; msg "user" "bye"] eq_refl eq_refl)).
Defined.

(** ** The text read from provider B *)

Lemma trim_start_first s : blank_char (first_char (trim_start s)) = false.
Proof.
  induction s as [|c s IH]; [reflexivity|]. cbn [trim_start].
  destruct (is_ws c) eqn:E; [exact IH | cbn; exact E].
Qed.

Lemma trim_end_first s : trim_end s = "" \/ first_char (trim_end s) = first_char s.
Proof.
  destruct s as [|c s]; [now left|]. cbn [trim_end].
  destruct (is_ws c && String.eqb (trim_end s) ""); [now left | now right].
Qed.

Lemma trim_end_last s : blank_char (last_char (trim_end s)) = false.
Proof.
  induction s as [|c s IH]; [reflexivity|]. cbn [trim_end].
  destruct (String.eqb_spec (trim_end s) "") as [E|E].
  - rewrite E, andb_true_r. destruct (is_ws c) eqn:Hc; [reflexivity | cbn; exact Hc].
  - rewrite andb_false_r. destruct (trim_end s) as [|c' r]; [contradiction|]. exact IH.
Qed.

Lemma trim_edges s :
  blank_char (first_char (trim s)) = false /\ blank_char (last_char (trim s)) = false.
Proof.
  unfold trim. split; [|apply trim_end_last].
  destruct (trim_end_first (trim_start s)) as [-> | ->]; [reflexivity | apply trim_start_first].
Qed.

(** X11.  A text that provider B's client returns is not empty and has
    no white space at its start or end. *)
Theorem gemini_answer_is_trimmed (res : response) (out : jsval)
    (Hout : outcome Gemini res = Ok out) :
  exists s,
    out = toOpenAIResponse (JStr s) /\ s <> ""
    /\ blank_char (first_char s) = false /\ blank_char (last_char s) = false.
Proof.
  unfold outcome in Hout. destruct (res_json res) as [e|json]; [discriminate|].
  destruct (gemini_text json) as [txt|] eqn:Etxt; [|discriminate].
  unfold str_truthy in Hout.
  destruct (String.eqb_spec txt "") as [E|Hne]; cbn [negb] in Hout;
    [discriminate|]. injection Hout as <-.
  exists txt. split; [reflexivity|]. split; [exact Hne|].
  rewrite gemini_text_spec in Etxt. destruct (negb (isArray _)).
  - injection Etxt as <-. contradiction.
  - destruct (forallb converts _); [|discriminate]. injection Etxt as <-. apply trim_edges.
Qed.

Lemma gemini_answer_is_trimmed_witness :
  exists s,
    toOpenAIResponse (JStr "a b") = toOpenAIResponse (JStr s) /\ s <> ""
    /\ blank_char (first_char s) = false /\ blank_char (last_char s) = false.
Proof.
  exact (gemini_answer_is_trimmed
           {| status := 200; res_text := None;
              res_json := Parsed (gemini_answer ["  a b "; ""]) |}
           (toOpenAIResponse (JStr "a b")) eq_refl).
Defined.

(** ** Catalogs and resolution *)

Lemma strings_of_ids field ids :
  strings_of (map (get field) (map (fun i => JObj [(field, JStr i)]) ids)) = ids.
Proof.
  induction ids as [|i ids IH]; [reflexivity|]. cbn [map get assoc].
  rewrite String.eqb_refl. cbn [strings_of]. now rewrite IH.
Qed.

Lemma strings_of_prefixed ids :
  map strip_models
    (strings_of (map (get "name") (map (fun i => JObj [("name", JStr ("models/" +:+ i))]) ids)))
  = ids.
Proof.
  induction ids as [|i ids IH]; [reflexivity|].
  cbn [map get assoc String.eqb Ascii.eqb Bool.eqb strings_of]. rewrite IH.
  now destruct i.
Qed.

(** X12.  A 2xx listing response of the provider's documented shape is
    read back as its ids, in order: [{data: [{id}]}] for provider A,
    [{models: [{name: "models/<id>"}]}] for provider B, whose [models/]
    prefix is removed. *)
Theorem listing_round_trip (ids : list string) (r : response) (Hok : ok r = true) :
  (res_json r = Parsed (groq_listing ids) -> groq_catalog r = ids)
  /\ (res_json r = Parsed (gemini_listing ids) -> gemini_catalog r = ids).
Proof.
  split; intros Hj.
  - unfold groq_catalog, listed_ids, groq_listing in *. rewrite Hok, Hj. cbn [negb get assoc
      String.eqb Ascii.eqb Bool.eqb isArray items_of]. apply strings_of_ids.
  - unfold gemini_catalog, listed_ids, gemini_listing in *. rewrite Hok, Hj. cbn [negb get assoc
      String.eqb Ascii.eqb Bool.eqb isArray items_of]. apply strings_of_prefixed.
Qed.

Lemma listing_round_trip_witness :
  gemini_catalog {| status := 200; res_text := None;
                    res_json := Parsed (gemini_listing ["gemini-2.5-pro"; "gemini-2.0-flash"]) |}
  = ["gemini-2.5-pro"; "gemini-2.0-flash"].
Proof.
  exact (proj2 (listing_round_trip ["gemini-2.5-pro"; "gemini-2.0-flash"]
                  {| status := 200; res_text := None;
                     res_json := Parsed (gemini_listing ["gemini-2.5-pro"; "gemini-2.0-flash"]) |}
                  eq_refl) eq_refl).
Defined.

(** X13.  When the listing request is answered with a non-success
    status or a body that is not JSON, resolution returns the provider's
    hardcoded default, whatever model was requested and whatever the
    preset. *)
Theorem resolution_degrades_to_default (net : network) (p : provider) (env : Bindings)
    (requested : jsval) (preset : Preset) (w : world) (r : response)
    (Hanswered : net (trace w) (listing p env) = Responded r)
    (Huseless : ok r = false \/ exists e, res_json r = ParseError e) :
  resolve net p env requested preset w = (Ok (default_model p), logged w (listing p env)).
Proof.
  rewrite resolve_run, Hanswered.
  assert (Hc : catalog p r = [])
    by (destruct p; [apply groq_catalog_degrades | apply gemini_catalog_degrades]; exact Huseless).
  now rewrite Hc, choose_empty.
Qed.

Lemma resolution_degrades_to_default_witness :
  resolve (scripted (http_fail 503 "unavailable") (http_fail 503 "unavailable")
                    (fun _ => Rejected "x") (fun _ => Rejected "x"))
          Groq both_keys (JStr "llama-3.3-70b-versatile") quality empty_world
  = (Ok "llama-3.1-8b-instant", logged empty_world (listing Groq both_keys)).
Proof.
  refine (resolution_degrades_to_default _ Groq both_keys (JStr "llama-3.3-70b-versatile")
            quality empty_world _ eq_refl _).
  left. reflexivity.
Defined.

Lemma choose_listed_or_default priority fallback requested available :
  choose priority fallback requested available = fallback \/
  In (choose priority fallback requested available) available.
Proof.
  unfold choose. destruct (truthy requested && includes available requested) eqn:E.
  - right. apply andb_true_iff in E as [_ E]. destruct requested; try discriminate E.
    cbn [String_]. now apply includes_In.
  - destruct (pickFirstAvailable priority available) as [q|] eqn:Eq.
    + right. apply pickFirstAvailable_Some in Eq as (? & ? & _ & Hin & _). exact Hin.
    + destruct available as [|a rest]; [now left|].
      destruct (str_truthy a); [right; now left | now left].
Qed.

(** X14.  A model id that resolution returns is the provider's
    hardcoded default or an entry of the catalog just listed.  Hence a
    requested id that is not listed is returned only when it is that
    default: one that is neither listed nor the default is never the id
    returned. *)
Theorem resolved_model_listed_or_default (net : network) (p : provider) (env : Bindings)
    (requested : jsval) (preset : Preset) (w w' : world) (m : string)
    (Hresolved : resolve net p env requested preset w = (Ok m, w')) :
  (m = default_model p
   \/ exists r, net (trace w) (listing p env) = Responded r /\ In m (catalog p r))
  /\ (forall s r,
        requested = JStr s -> net (trace w) (listing p env) = Responded r ->
        ~ In s (catalog p r) -> s <> default_model p -> m <> s).
Proof.
  rewrite resolve_run in Hresolved.
  destruct (net (trace w) (listing p env)) as [e|r]; [discriminate|].
  injection Hresolved as <- _.
  pose proof (choose_listed_or_default (priority p preset) (default_model p) requested
                (catalog p r)) as H.
  split; [destruct H as [H | H]; [now left | right; eauto]|].
  intros s r' _ [= <-] Hnin Hne Heq. rewrite Heq in H. destruct H as [H | H]; contradiction.
Qed.

Lemma resolved_model_listed_or_default_witness :
  ("llama-3.1-8b-instant" = default_model Groq
   \/ exists r, net_all_up (trace empty_world) (listing Groq both_keys) = Responded r
                /\ In "llama-3.1-8b-instant" (catalog Groq r))
  /\ "llama-3.1-8b-instant" <> "no-such-model".
Proof.
  pose proof (resolved_model_listed_or_default net_all_up Groq both_keys
                (JStr "no-such-model") speed empty_world _ _ eq_refl) as [H1 H2].
  split; [exact H1|].
  apply (H2 "no-such-model" _ eq_refl eq_refl); [|discriminate].
  cbn. intros [H | []]. discriminate H.
Defined.

Lemma pickFirstAvailable_found priority available p before after :
  priority = before ++ p :: after -> In p available ->
  Forall (fun q => ~ In q available) before ->
  pickFirstAvailable priority available = Some p.
Proof.
  intros -> Hin Hall.
  induction Hall as [|q before Hq Hall IH]; cbn [app pickFirstAvailable].
  - apply includes_In in Hin. now rewrite Hin.
  - destruct (includes available (JStr q)) eqn:E; [|exact IH].
    apply includes_In in E. contradiction.
Qed.

Lemma pickFirstAvailable_missing priority available :
  Forall (fun q => ~ In q available) priority ->
  pickFirstAvailable priority available = None.
Proof.
  induction 1 as [|q rest Hq Hall IH]; [reflexivity|]. cbn [pickFirstAvailable].
  destruct (includes available (JStr q)) eqn:E; [|exact IH].
  apply includes_In in E. contradiction.
Qed.

(** X15.  [pickFirstAvailable] returns [p] exactly when [p] is the
    first entry of the priority list that is in the catalog, and nothing
    exactly when no entry of the priority list is in the catalog. *)
Theorem pickFirstAvailable_spec (priority available : list string) :
  (forall p, pickFirstAvailable priority available = Some p <->
     exists before after,
       priority = before ++ p :: after /\ In p available /\
       Forall (fun q => ~ In q available) before)
  /\ (pickFirstAvailable priority available = None <->
        Forall (fun q => ~ In q available) priority).
Proof.
  split.
  - intros p. split; [apply pickFirstAvailable_Some|].
    intros (before & after & Hp & Hin & Hall).
    now apply (pickFirstAvailable_found _ _ _ before after).
  - split; [apply pickFirstAvailable_None | apply pickFirstAvailable_missing].
Qed.

(** X16.  Whenever the listing request is answered, resolution returns
    a model id, chosen in this order: the requested model when it is a
    non-empty string in the catalog, whatever the preset; otherwise the
    first entry of the provider's priority list for the preset that is in
    the catalog; otherwise the first catalog entry, when it is not the
    empty string; and the hardcoded default when the catalog is empty. *)
Theorem resolution_order (net : network) (p : provider) (env : Bindings) (requested : jsval)
    (preset : Preset) (w : world) (r : response)
    (Hanswered : net (trace w) (listing p env) = Responded r) :
  exists m,
    resolve net p env requested preset w = (Ok m, logged w (listing p env))
    /\ (forall s, requested = JStr s -> s <> "" -> In s (catalog p r) -> m = s)
    /\ (truthy requested && includes (catalog p r) requested = false ->
          (forall q before after,
             priority p preset = before ++ q :: after -> In q (catalog p r) ->
             Forall (fun x => ~ In x (catalog p r)) before -> m = q)
          /\ (Forall (fun x => ~ In x (catalog p r)) (priority p preset) ->
                (forall a rest, catalog p r = a :: rest -> a <> "" -> m = a)
                /\ (catalog p r = [] -> m = default_model p))).
Proof.
  destruct (resolve_responded net p env requested preset w r Hanswered)
    as (m & Hrun & _ & Hreq & Hrest).
  exists m. split; [exact Hrun|]. split; [exact Hreq|]. intros Hr.
  destruct (Hrest Hr) as [Hprio Hnone]. split.
  - intros q before after Hp Hin Hall. apply Hprio.
    now apply (pickFirstAvailable_found _ _ _ before after).
  - intros Hall. apply Hnone. now apply pickFirstAvailable_missing.
Qed.

Lemma resolution_order_witness :
  exists m,
    resolve net_listed_but_404 Groq groq_only (JStr "llama-3.3-70b-versatile") speed empty_world
      = (Ok m, logged empty_world (listing Groq groq_only))
    /\ m = "llama-3.3-70b-versatile".
Proof.
  destruct (resolution_order net_listed_but_404 Groq groq_only
              (JStr "llama-3.3-70b-versatile") speed empty_world _ eq_refl)
    as (m & Hrun & Hreq & _).
  exists m. split; [exact Hrun|]. apply (Hreq _ eq_refl); [discriminate|].
  vm_compute. auto.
Defined.

(** X17.  A response is classified as decommissioned when its status is
    404; when its status is 400, exactly when its body contains [model]
    in any letter case, followed on the same line by [decommissioned] or
    [not found] in any letter case; and for no other status, whatever the
    body says. *)
Theorem decommissioned_classification (st : Z) (body : string) :
  (st = 404 -> isDecommissionedHttp st body = true)
  /\ (st = 400 ->
        (isDecommissionedHttp st body = true <->
         exists pre mdl gap kw rest,
           body = pre +:+ mdl +:+ gap +:+ kw +:+ rest /\
           lower_string mdl = "model" /\ no_line_terminator gap = true /\
           (lower_string kw = "decommissioned" \/ lower_string kw = "not found")))
  /\ (st <> 404 -> st <> 400 -> isDecommissionedHttp st body = false).
Proof.
  split; [intros ->; reflexivity|]. split.
  - intros ->. rewrite <- decommission_pattern_iff. unfold isDecommissionedHttp.
    cbn [Z.eqb Pos.eqb andb]. destruct (decommission_pattern body); split; auto.
  - intros H404 H400. unfold isDecommissionedHttp.
    apply Z.eqb_neq in H404, H400. now rewrite H404, H400.
Qed.

(** ** More on the rate limiter *)

Lemma split_at_last {A} (c : A) : forall x y d d',
  ~ In c d -> ~ In c d' -> x ++ c :: d = y ++ c :: d' -> x = y /\ d = d'.
Proof.
  induction x as [|a x IH]; intros [|b y] d d' Hd Hd' H; cbn [app] in H.
  - injection H as ->. auto.
  - injection H as <- ->. exfalso. apply Hd. apply in_or_app. right. now left.
  - injection H as -> <-. exfalso. apply Hd'. apply in_or_app. right. now left.
  - injection H as <- H. destruct (IH y d d' Hd Hd' H) as [-> ->]. auto.
Qed.

Lemma digits_no_colon d :
  ~ In ":"%char (list_ascii_of_string (NilEmpty.string_of_uint d)).
Proof. induction d; cbn; [tauto|..]; (intros [H | H]; [discriminate H | auto]). Qed.

Lemma string_of_int_no_colon n : 0 <= n -> ~ In ":"%char (list_ascii_of_string (string_of_int n)).
Proof.
  destruct n as [|p|p]; intros Hn; [|apply digits_no_colon | lia].
  cbn. intros [H | H]; [discriminate H | exact H].
Qed.

Lemma string_of_int_inj a b : 0 <= a -> 0 <= b -> string_of_int a = string_of_int b -> a = b.
Proof.
  intros Ha Hb H. apply (f_equal parseInt) in H.
  rewrite !parseInt_string_of_nonneg in H by assumption. now injection H.
Qed.

Lemma list_ascii_inj a b : list_ascii_of_string a = list_ascii_of_string b -> a = b.
Proof.
  intros H. rewrite <- (string_of_list_ascii_of_string a), <- (string_of_list_ascii_of_string b).
  now rewrite H.
Qed.

Lemma bucket_eq_same id id' t t' :
  0 <= t -> 0 <= t' -> bucket id t = bucket id' t' ->
  client id = client id' /\ t / 600000 = t' / 600000.
Proof.
  intros Ht Ht'. unfold bucket. fold (client id) (client id'). intros H.
  apply append_cancel_l in H. apply (f_equal list_ascii_of_string) in H.
  rewrite !list_ascii_of_append in H. cbn [list_ascii_of_string app] in H.
  apply split_at_last in H as [Hc Hw].
  - split; [now apply list_ascii_inj|].
    apply list_ascii_inj in Hw. apply string_of_int_inj in Hw; [exact Hw | |];
      apply Z.div_pos; lia.
  - apply string_of_int_no_colon. apply Z.div_pos; lia.
  - apply string_of_int_no_colon. apply Z.div_pos; lia.
Qed.

(** X18.  Two rate-limit buckets are the same key exactly when they
    belong to the same client ([id || 'anon']) and the same 10-minute
    window; in particular an id containing [:] or digits cannot collide
    with another client's bucket, and requests without an id share the
    bucket of ['anon']. *)
Theorem bucket_shared_iff (id id' : string) (t t' : Z) (Ht : 0 <= t) (Ht' : 0 <= t') :
  bucket id t = bucket id' t' <-> client id = client id' /\ t / 600000 = t' / 600000.
Proof.
  split; [now apply bucket_eq_same|].
  intros [Hc Hw]. unfold bucket. fold (client id) (client id'). now rewrite Hc, Hw.
Qed.

Lemma bucket_shared_iff_witness :
  bucket "" 1000 = bucket "anon" 599999 /\ bucket "a" 0 <> bucket "a:0" 0.
Proof.
  split.
  - apply (proj2 (bucket_shared_iff "" "anon" 1000 599999 ltac:(lia) ltac:(lia))).
    split; reflexivity.
  - intros H. apply (proj1 (bucket_shared_iff "a" "a:0" 0 0 ltac:(lia) ltac:(lia))) in H.
    destruct H as [H _]. discriminate H.
Defined.

Lemma rateLimit_frame id t w k :
  k <> bucket id t -> kv (snd (rateLimit id t w)) !! k = kv w !! k.
Proof. intros H. rewrite rateLimit_run. cbn [snd kv]. now rewrite lookup_insert_ne. Qed.

Lemma admit_all_frame k calls : forall w,
  Forall (fun c => bucket (fst c) (snd c) <> k) calls ->
  kv (snd (admit_all calls w)) !! k = kv w !! k.
Proof.
  induction calls as [|[i t] calls IH]; intros w H; [reflexivity|].
  inversion H as [|c l Hc Hl]; subst. cbn [fst snd] in Hc.
  cbn [admit_all]. pose proof (rateLimit_frame i t w k ltac:(congruence)) as Hf.
  destruct (rateLimit i t w) as [[b|e] w1]; cbn [snd] in Hf; [|exact Hf].
  specialize (IH w1 Hl). destruct (admit_all calls w1) as [bs w2]. cbn [snd] in *.
  now rewrite IH.
Qed.

(** X19.  Whatever calls were made in one window, a client's call in
    another window for which the store holds no bucket is admitted: the
    count does not carry over. *)
Theorem new_window_starts_afresh (W : Z) (calls : list (string * Z)) (id : string) (t' : Z)
    (w : world)
    (Hwindow : in_window W calls = true)
    (Hpast : forallb (fun c => 0 <=? snd c) calls = true)
    (Hnow : 0 <= t')
    (Hother : t' / 600000 <> W)
    (Hfresh : kv w !! bucket id t' = None) :
  fst (rateLimit id t' (snd (admit_all calls w))) = Ok true.
Proof.
  assert (Hk : kv (snd (admit_all calls w)) !! bucket id t' = None).
  { rewrite admit_all_frame; [exact Hfresh|].
    apply List.Forall_forall. intros [i t] Hin. cbn [fst snd]. intros Heq.
    unfold in_window in Hwindow. rewrite forallb_forall in Hwindow, Hpast.
    specialize (Hwindow _ Hin). specialize (Hpast _ Hin). cbn [snd] in *.
    apply Z.eqb_eq in Hwindow. apply Z.leb_le in Hpast.
    apply bucket_eq_same in Heq as [_ Heq]; [congruence | exact Hpast | exact Hnow]. }
  rewrite rateLimit_run. unfold stored. now rewrite Hk.
Qed.

Lemma new_window_starts_afresh_witness :
  fst (rateLimit "alice" 600000
         (snd (admit_all (repeat ("alice", 1000) 70) empty_world))) = Ok true.
Proof.
  apply (new_window_starts_afresh 0 (repeat ("alice", 1000) 70) "alice" 600000 empty_world);
    first [reflexivity | lia | discriminate].
Defined.

Lemma rateLimit_rejects_unparseable id t w v :
  stored t (bucket id t) w = Some v -> parseInt v = None ->
  rateLimit id t w
    = (Ok false, {| kv := <[bucket id t := ("NaN", t + 660000)]> (kv w); trace := trace w |}).
Proof. intros Hv Hp. now rewrite rateLimit_run, Hv, Hp. Qed.

Lemma admit_all_poisoned W id ts : forall t0 w,
  t0 / 600000 = W -> forallb (fun t => t / 600000 =? W) ts = true ->
  kv w !! bucket id t0 = Some ("NaN", t0 + 660000) ->
  fst (admit_all (calls_of id ts) w) = repeat false (length ts).
Proof.
  induction ts as [|t ts IH]; intros t0 w Ht0 Hts Hkv; [reflexivity|].
  cbn [forallb] in Hts. apply andb_true_iff in Hts as [Ht Hts]. apply Z.eqb_eq in Ht.
  cbn [calls_of map admit_all]. fold (calls_of id ts).
  assert (Hb : bucket id t = bucket id t0)
    by (now rewrite (bucket_in_window id W t Ht), (bucket_in_window id W t0 Ht0)).
  rewrite (rateLimit_rejects_unparseable id t w "NaN"); [|unfold stored|reflexivity].
  - specialize (IH t {| kv := <[bucket id t := ("NaN", t + 660000)]> (kv w); trace := trace w |}
                  Ht Hts).
    specialize (IH ltac:(cbn [kv]; apply lookup_insert_eq)).
    destruct (admit_all (calls_of id ts) _) as [bs w2]. cbn [fst] in *. now rewrite IH.
  - rewrite Hb, Hkv. now rewrite (same_window_alive W t t0 Ht Ht0).
Qed.

(** X20.  If the stored counter cannot be read as an integer, the call
    is rejected and ["NaN"] is stored in its place, so every later call
    of that client in the window is rejected too. *)
Theorem unparseable_counter_blocks_window (W : Z) (id : string) (t : Z) (ts : list Z)
    (w : world) (v : string)
    (Hwindow : forallb (fun t => t / 600000 =? W) (t :: ts) = true)
    (Hstored : stored t (bucket id t) w = Some v)
    (Hunreadable : parseInt v = None) :
  fst (admit_all (calls_of id (t :: ts)) w) = repeat false (S (length ts))
  /\ stored t (bucket id t) (snd (rateLimit id t w)) = Some "NaN".
Proof.
  cbn [forallb] in Hwindow. apply andb_true_iff in Hwindow as [Ht Hts]. apply Z.eqb_eq in Ht.
  split.
  - cbn [calls_of map admit_all]. fold (calls_of id ts).
    rewrite (rateLimit_rejects_unparseable id t w v Hstored Hunreadable).
    pose proof (admit_all_poisoned W id ts t
                  {| kv := <[bucket id t := ("NaN", t + 660000)]> (kv w); trace := trace w |}
                  Ht Hts ltac:(cbn [kv]; apply lookup_insert_eq)) as Hrest.
    destruct (admit_all (calls_of id ts) _) as [bs w2]. cbn [fst] in *. now rewrite Hrest.
  - rewrite (rateLimit_rejects_unparseable id t w v Hstored Hunreadable).
    unfold stored. cbn [snd kv]. rewrite lookup_insert_eq.
    assert ((t <? t + 660000) = true) as -> by (apply Z.ltb_lt; lia). reflexivity.
Qed.

Lemma unparseable_counter_blocks_window_witness :
  fst (admit_all (calls_of "alice" [1000; 2000; 3000])
         {| kv := {[ bucket "alice" 1000 := ("sixty", 700000) ]}; trace := [] |})
  = [false; false; false].
Proof.
  exact (proj1 (unparseable_counter_blocks_window 0 "alice" 1000 [2000; 3000]
                  {| kv := {[ bucket "alice" 1000 := ("sixty", 700000) ]}; trace := [] |}
                  "sixty" eq_refl eq_refl eq_refl)).
Defined.

(** ** The health endpoint *)

Lemma bucket_not_health id t : "health" <> bucket id t.
Proof. unfold bucket. discriminate. Qed.

(** X21.  [GET /health] always answers 200 with [ok: true], reports
    [kv] as ['ok'] or ['error'] according to the store write and each
    secret as configured or not, sends no outbound request, and leaves
    every rate-limit bucket, hence every later admission, as it was. *)
Theorem health_is_harmless (env : Bindings) (now : Z) (put_outcome : option string)
    (w : world) :
  exists resp w',
    health env now put_outcome w = (Ok resp, w')
    /\ code resp = 200
    /\ get "ok" (payload resp) = JBool true
    /\ get "kv" (payload resp)
       = JStr (match put_outcome with None => "ok" | Some _ => "error" end)
    /\ get "groq_secret" (payload resp) = JBool (configured (GROQ_API_KEY env))
    /\ get "gemini_secret" (payload resp) = JBool (configured (GEMINI_API_KEY env))
    /\ trace w' = trace w
    /\ (forall id t, kv w' !! bucket id t = kv w !! bucket id t)
    /\ (forall id t, fst (rateLimit id t w') = fst (rateLimit id t w)).
Proof.
  destruct put_outcome as [e|]; eexists _, _; (split; [reflexivity|]);
    cbn [code payload trace kv]; do 6 (split; [reflexivity|]).
  - split; intros; reflexivity.
  - assert (Hk : forall id t,
              <["health" := ("1", now + 1000 * 60)]> (kv w) !! bucket id t = kv w !! bucket id t)
      by (intros; apply lookup_insert_ne, bucket_not_health).
    split; [exact Hk|]. intros id t. rewrite !rateLimit_run. cbn [fst]. unfold stored.
    cbn [kv]. now rewrite Hk.
Qed.

(** ** The earlier variants *)

Lemma early_rateLimit_trace id now w :
  Early.trace (snd (Early.rateLimit id now w)) = Early.trace w.
Proof. reflexivity. Qed.

Lemma variant1_callGroq_run net env body w :
  configured (GROQ_API_KEY env) = true ->
  Variant1.callGroq net env body w =
    (match net (Early.trace w) (Early.groq_request env body) with
     | Rejected e => Throw e
     | Responded res =>
         if ok res then outcome Groq res else Throw ("Error: " +:+ http_error "groq" res)
     end,
     {| Early.kv := Early.kv w;
        Early.trace := Early.trace w ++ [Early.groq_request env body] |}).
Proof.
  intros Hk. unfold Variant1.callGroq, Early.bind, Early.fetch, Early.throw_Error, Early.throw,
    Early.ret, outcome. rewrite Hk. cbn [negb tag].
  destruct (net _ _) as [e|res]; [reflexivity|].
  destruct (ok res); cbn [negb]; [|reflexivity].
  destruct (res_json res) as [e|json]; [reflexivity|].
  destruct (negb (truthy (groq_text json)) || negb (is_string (groq_text json))); reflexivity.
Qed.

(** Provider B's client converts the model and translates the body
    before it sends anything. *)
Lemma variant1_callGemini_run net env body w :
  configured (GEMINI_API_KEY env) = true ->
  Variant1.callGemini net env body w =
    if Early.sendable body then
      (match net (Early.trace w) (Early.gemini_request env body) with
       | Rejected e => Throw e
       | Responded res =>
           if ok res then outcome Gemini res else Throw ("Error: " +:+ http_error "gemini" res)
       end,
       {| Early.kv := Early.kv w;
          Early.trace := Early.trace w ++ [Early.gemini_request env body] |})
    else (Throw type_error, w).
Proof.
  intros Hk. unfold Variant1.callGemini, Early.sendable, ToString. rewrite Hk, openAIToGeminiBody_spec.
  cbn [negb]. unfold Early.bind, Early.converted, Early.ret, Early.throw.
  destruct (converts (Early.gemini_model body)); [|reflexivity].
  destruct (convertible (messages_of body)); [|reflexivity]. cbn [andb].
  unfold Early.fetch, Early.throw_Error, Early.throw, Early.gemini_request, outcome.
  destruct (net _ _) as [e|res]; [reflexivity|].
  destruct (ok res); cbn [negb tag]; [|reflexivity].
  destruct (res_json res) as [e|json]; [reflexivity|].
  destruct (gemini_text json) as [txt|]; [|reflexivity].
  destruct (negb (str_truthy txt)); reflexivity.
Qed.

(** X22.  In the first variant (lines 1-231) a provider call with its
    key configured sends at most one request, with [body.model] or the
    fixed default, and any non-success status, 404 included, fails the
    call with the HTTP error: there is no listing and no retry.  Provider
    A's client always sends its request.  Provider B's client first
    converts the model to text and translates the body: it sends its
    request when the model and every content converted can be converted,
    and otherwise fails with the [TypeError] and sends nothing. *)
Theorem early_clients_try_once (net : Early.network) (env : Bindings) (body : jsval)
    (w : Early.world)
    (HkeyA : configured (GROQ_API_KEY env) = true)
    (HkeyB : configured (GEMINI_API_KEY env) = true) :
  Early.trace (snd (Variant1.callGroq net env body w))
    = Early.trace w ++ [Early.groq_request env body]
  /\ (Early.sendable body = true ->
        Early.trace (snd (Variant1.callGemini net env body w))
          = Early.trace w ++ [Early.gemini_request env body])
  /\ (Early.sendable body = false ->
        Variant1.callGemini net env body w = (Throw type_error, w))
  /\ (forall res, net (Early.trace w) (Early.groq_request env body) = Responded res ->
        ok res = false ->
        fst (Variant1.callGroq net env body w) = Throw ("Error: " +:+ http_error "groq" res))
  /\ (forall res, Early.sendable body = true ->
        net (Early.trace w) (Early.gemini_request env body) = Responded res ->
        ok res = false ->
        fst (Variant1.callGemini net env body w) = Throw ("Error: " +:+ http_error "gemini" res)).
Proof.
  rewrite variant1_callGroq_run, variant1_callGemini_run by assumption. cbn [fst snd Early.trace].
  split; [reflexivity|]. split; [now intros ->|]. split; [now intros ->|].
  split; [intros res -> ->; reflexivity | intros res -> -> ->; reflexivity].
Qed.

Lemma early_clients_try_once_witness :
  fst (Variant1.callGroq (always (http_fail 404 "model not found")) both_keys
         (JObj [("messages", hello)]) early_empty)
  = Throw "Error: groq_http_404:model not found"
  /\ Variant1.callGemini (always (json_ok (gemini_answer ["hi from B"]))) both_keys
       unconvertible_body early_empty
     = (Throw "TypeError: Cannot convert object to primitive value", early_empty).
Proof.
  split.
  - exact (proj1 (proj2 (proj2 (proj2 (early_clients_try_once
                     (always (http_fail 404 "model not found"))
                     both_keys (JObj [("messages", hello)]) early_empty
                     eq_refl eq_refl)))) _ eq_refl eq_refl).
  - exact (proj1 (proj2 (proj2 (early_clients_try_once
                     (always (json_ok (gemini_answer ["hi from B"])))
                     both_keys unconvertible_body early_empty eq_refl eq_refl))) eq_refl).
Defined.

(** X23.  In the first variant, for an admitted [auto] request whose
    provider-A call fails, provider B's client is called exactly when
    [Boolean(body.enable_fallback ?? true)] holds and provider B's key is
    configured, and its outcome is the answer (200, or 500
    [fallback_failed]); it sends its one request unless the model or the
    body cannot be converted.  Otherwise the answer is 502
    [groq_failed_no_fallback] with provider A's error and nothing more is
    sent.  An omitted flag counts as true, [false] as false. *)
Theorem early_fallback_respects_flag (net : Early.network) (env : Bindings) (now : Z)
    (cid : option string) (body : jsval) (w w0 w1 : Early.world) (e1 : string)
    (Hauto : nullish (get "provider" body) (JStr "auto") = JStr "auto")
    (Hadmit : Early.rateLimit (header_id cid) now w = (Ok true, w0))
    (HfailA : Variant1.callGroq net env body w0 = (Throw e1, w1)) :
  let go := Early.fallback_of body && configured (GEMINI_API_KEY env) in
  (go = false ->
     Variant1.chat net env now (post cid body) w
       = (Ok (error_json 502 ("groq_failed_no_fallback:" +:+ e1)), w1))
  /\ (go = true ->
        Variant1.chat net env now (post cid body) w
          = (match Variant1.callGemini net env body w1 with
             | (Ok out, w2) => (Ok (success_json out), w2)
             | (Throw e2, w2) => (Ok (error_json 500 ("fallback_failed:" +:+ e2)), w2)
             end)
        /\ Early.trace (snd (Variant1.chat net env now (post cid body) w))
           = Early.trace w1
               ++ (if Early.sendable body then [Early.gemini_request env body] else []))
  /\ (get "enable_fallback" body = JUndefined -> Early.fallback_of body = true)
  /\ (get "enable_fallback" body = JBool false -> Early.fallback_of body = false).
Proof.
  intros go.
  assert (Hrun : Variant1.chat net env now (post cid body) w =
                 if go
                 then match Variant1.callGemini net env body w1 with
                      | (Ok out, w2) => (Ok (success_json out), w2)
                      | (Throw e2, w2) => (Ok (error_json 500 ("fallback_failed:" +:+ e2)), w2)
                      end
                 else (Ok (error_json 502 ("groq_failed_no_fallback:" +:+ e1)), w1)).
  { unfold Variant1.chat, post, Early.try_catch, Early.bind. cbn [client_id req_json].
    fold (header_id cid). rewrite Hadmit. cbn [negb]. unfold Early.ret at 1.
    rewrite Hauto. cbn [eq_str String.eqb Ascii.eqb Bool.eqb]. rewrite HfailA. fold go.
    destruct go; [|reflexivity].
    destruct (Variant1.callGemini net env body w1) as [[out|e2] w2]; reflexivity. }
  split; [intros Hgo; now rewrite Hrun, Hgo|]. split.
  - intros Hgo. rewrite Hrun, Hgo. split; [reflexivity|].
    apply andb_true_iff in Hgo as [_ Hk].
    rewrite (variant1_callGemini_run net env body w1 Hk).
    destruct (Early.sendable body); [|cbn [snd]; now rewrite app_nil_r].
    destruct (net _ _) as [e|res]; [reflexivity|].
    destruct (ok res); [destruct (outcome Gemini res)|]; reflexivity.
  - unfold Early.fallback_of. split; intros ->; reflexivity.
Qed.

Lemma early_fallback_respects_flag_witness :
  Variant1.chat (always (http_fail 500 "internal error")) both_keys 1000
    (post (Some "alice") (JObj [("enable_fallback", JBool false); ("messages", hello)]))
    early_empty
  = (Ok (error_json 502 "groq_failed_no_fallback:Error: groq_http_500:internal error"),
     snd (Variant1.callGroq (always (http_fail 500 "internal error")) both_keys
            (JObj [("enable_fallback", JBool false); ("messages", hello)])
            (snd (Early.rateLimit "alice" 1000 early_empty)))).
Proof.
  exact (proj1 (early_fallback_respects_flag (always (http_fail 500 "internal error"))
                  both_keys 1000 (Some "alice")
                  (JObj [("enable_fallback", JBool false); ("messages", hello)])
                  early_empty _ _ _ eq_refl eq_refl eq_refl) eq_refl).
Defined.



(** X25.  In the second variant the handler always answers, and every
    answer that is not a 200 is one of four fixed errors -- 429
    [rate_limited], 502 [groq_failed_no_fallback], 500
    [both_providers_failed], 500 [server_error] -- so no upstream error
    text reaches the caller. *)
Theorem variant2_errors_are_fixed (net : Early.network) (env : Bindings) (now : Z)
    (rq : http_request) (w : Early.world) :
  exists resp,
    fst (Variant2.chat net env now rq w) = Ok resp
    /\ (code resp = 200
        \/ resp = error_json 429 "rate_limited"
        \/ resp = error_json 502 "groq_failed_no_fallback"
        \/ resp = error_json 500 "both_providers_failed"
        \/ resp = error_json 500 "server_error").
Proof.
  unfold Variant2.chat, Early.try_catch, Early.bind.
  destruct (Early.rateLimit _ now w) as [[[|]|e] w0]; cbn [negb];
    [| eexists; split; [reflexivity | auto] | eexists; split; [reflexivity | auto 6]].
  destruct (req_json rq) as [e|body]; [eexists; split; [reflexivity | auto 6]|].
  unfold Early.ret at 1.
  destruct (eq_str _ "groq").
  { destruct (Variant2.callGroq net env body w0) as [[out|e] w1];
      eexists; (split; [reflexivity|]); [left; reflexivity | auto 6]. }
  destruct (eq_str _ "gemini").
  { destruct (Variant2.callGemini net env body w0) as [[out|e] w1];
      eexists; (split; [reflexivity|]); [left; reflexivity | auto 6]. }
  destruct (Variant2.callGroq net env body w0) as [[out|e] w1];
    [eexists; split; [reflexivity | left; reflexivity]|].
  destruct (Early.fallback_of body && configured (GEMINI_API_KEY env));
    [|eexists; split; [reflexivity | auto]].
  destruct (Variant2.callGemini net env body w1) as [[out|e2] w2];
    eexists; (split; [reflexivity|]); [left; reflexivity | auto 6].
Qed.
